(** * Core domain logic of the geometry-teaching application

    A shallow embedding of the tolerance-based triangle geometry
    (triangle.ts, fold.ts, congruence.ts), of the evidence-chip registry
    (chip-system.ts) and of the guarded activity state machine
    (activity-machine.ts), followed by the properties established for them.

    Numbers.  A TypeScript [number] is modelled as a real number: [Math.sqrt],
    [Math.abs], [Math.min], [Math.max], [Math.sin], [Math.PI] are the
    corresponding functions of the real-number library and comparisons are
    decided classically.  Rounding, NaN and signed zeros are outside the
    model, except where a function is given an argument of type
    [Fold.number], which adds NaN to the real numbers. *)

From Stdlib Require Import Reals Lra Lia ZArith.
From stdpp Require Import base decidable option list strings pretty.

#[global] Instance Rlt_decision (a b : R) : Decision (a < b)%R := Rlt_dec a b.
#[global] Instance Rle_decision (a b : R) : Decision (a <= b)%R := Rle_dec a b.
#[global] Instance Rgt_decision (a b : R) : Decision (a > b)%R := Rgt_dec a b.
#[global] Instance Rge_decision (a b : R) : Decision (a >= b)%R := Rge_dec a b.
#[global] Instance Req_decision : EqDecision R := Req_dec_T.

(* ===================================================================== *)
(** * Part I: the embedding                                               *)
(* ===================================================================== *)

(** ** geometry/types.ts and geometry/triangle.ts *)
Module Geometry.
#[local] Open Scope R_scope.

Record Point := mkPoint { x : R; y : R }.

Record Segment := mkSegment { start : Point; end_ : Point }.

Record Triangle := mkTriangle { A : Point; B : Point; C : Point }.

Record Sides := mkSides { AB : R; AC : R; BC : R }.

Record Angles := mkAngles { angleA : R; angleB : R; angleC : R }.

Record TriangleMeasurements := mkMeasurements { sides : Sides; angles : Angles }.

Inductive CongruenceType := SSS | SAS | ASA | RHS | RHA.

Record CongruenceCondition := mkCondition {
  type : CongruenceType;
  elements : list string;
  isValid : bool
}.

(** The default value of every [tolerance] parameter. *)
Definition default_tolerance : R := 0.001.

(** [Math.atan2(y, x)]: the bearing of the vector [(x, y)], in (-PI, PI]. *)
Definition atan2 (y x : R) : R :=
  if decide (0 < x) then atan (y / x)
  else if decide (x < 0) then
         if decide (0 <= y) then atan (y / x) + PI else atan (y / x) - PI
  else if decide (0 < y) then PI / 2
  else if decide (y < 0) then - (PI / 2)
  else 0.

Definition distance (p1 p2 : Point) : R :=
  sqrt ((x p2 - x p1) ^ 2 + (y p2 - y p1) ^ 2).

Definition angle (vertex p1 p2 : Point) : R :=
  let v1 := mkPoint (x p1 - x vertex) (y p1 - y vertex) in
  let v2 := mkPoint (x p2 - x vertex) (y p2 - y vertex) in
  atan2 (y v2) (x v2) - atan2 (y v1) (x v1).

Definition toDegrees (radians : R) : R := (radians * 180) / PI.

Definition toRadians (degrees : R) : R := (degrees * PI) / 180.

Definition measureTriangle (triangle : Triangle) : TriangleMeasurements :=
  let sides :=
    {| AB := distance (A triangle) (B triangle);
       AC := distance (A triangle) (C triangle);
       BC := distance (B triangle) (C triangle) |} in
  let angles :=
    {| angleA := Rabs (toDegrees (angle (A triangle) (B triangle) (C triangle)));
       angleB := Rabs (toDegrees (angle (B triangle) (A triangle) (C triangle)));
       angleC := Rabs (toDegrees (angle (C triangle) (A triangle) (B triangle))) |} in
  {| sides := sides; angles := angles |}.

Definition isIsosceles (triangle : Triangle) (tolerance : R) : bool :=
  let s := sides (measureTriangle triangle) in
  bool_decide (Rabs (AB s - AC s) < tolerance).

Definition isEqual (value1 value2 tolerance : R) : bool :=
  bool_decide (Rabs (value1 - value2) < tolerance).

Definition isAngleEqual (angle1 angle2 tolerance : R) : bool :=
  bool_decide (Rabs (angle1 - angle2) < tolerance).

Definition getArea (triangle : Triangle) : R :=
  let '(mkTriangle A B C) := triangle in
  Rabs ((x B - x A) * (y C - y A) - (x C - x A) * (y B - y A)) / 2.

(** When A coincides with B or with C a leg has length 0, the normalisation
    in the code divides 0 by 0 and the point it returns has NaN coordinates;
    that input is outside the model, where every quotient is a real number. *)
Definition getAngleBisectorIntersection (triangle : Triangle) : Point :=
  let A := A triangle in
  let B := B triangle in
  let C := C triangle in
  let AB := mkPoint (x B - x A) (y B - y A) in
  let AC := mkPoint (x C - x A) (y C - y A) in
  let lenAB := sqrt (x AB * x AB + y AB * y AB) in
  let lenAC := sqrt (x AC * x AC + y AC * y AC) in
  let unitAB := mkPoint (x AB / lenAB) (y AB / lenAB) in
  let unitAC := mkPoint (x AC / lenAC) (y AC / lenAC) in
  let bisectorDir := mkPoint (x unitAB + x unitAC) (y unitAB + y unitAC) in
  let BC := mkPoint (x C - x B) (y C - y B) in
  let AB_to_bisector := mkPoint (x A - x B) (y A - y B) in
  let denominator := x BC * y bisectorDir - y BC * x bisectorDir in
  if decide (Rabs denominator < 0.0001) then
    mkPoint ((x B + x C) / 2) ((y B + y C) / 2)
  else
    let t := (x AB_to_bisector * y bisectorDir - y AB_to_bisector * x bisectorDir)
             / denominator in
    mkPoint (x B + t * x BC) (y B + t * y BC).

Definition isValidTriangle (triangle : Triangle) : bool :=
  let '(mkSides AB AC BC) := sides (measureTriangle triangle) in
  bool_decide (AB + AC > BC) && bool_decide (AB + BC > AC) && bool_decide (AC + BC > AB).

(** The midpoint of a segment. *)
Definition midpoint (p q : Point) : Point :=
  mkPoint ((x p + x q) / 2) ((y p + y q) / 2).

End Geometry.

(** ** geometry/fold.ts *)
Module Fold.
Import Geometry.
#[local] Open Scope R_scope.

Record FoldResult := mkFoldResult {
  foldLine : Segment;
  leftTriangle : Triangle;
  rightTriangle : Triangle;
  overlapArea : R;
  isValid : bool
}.

Definition reflectPoint (point lineStart lineEnd : Point) : Point :=
  let lineDir := mkPoint (x lineEnd - x lineStart) (y lineEnd - y lineStart) in
  let toPoint := mkPoint (x point - x lineStart) (y point - y lineStart) in
  let lineLengthSq := x lineDir * x lineDir + y lineDir * y lineDir in
  if decide (lineLengthSq = 0) then point
  else
    let projection := (x toPoint * x lineDir + y toPoint * y lineDir) / lineLengthSq in
    let closestPoint :=
      mkPoint (x lineStart + projection * x lineDir)
              (y lineStart + projection * y lineDir) in
    mkPoint (2 * x closestPoint - x point) (2 * y closestPoint - y point).

Definition foldTriangleAlongBisector (triangle : Triangle) (foldAngle : R) : FoldResult :=
  let bisectorPoint := getAngleBisectorIntersection triangle in
  let foldLine := mkSegment (A triangle) bisectorPoint in
  let leftTriangle := mkTriangle (A triangle) (B triangle) bisectorPoint in
  let rightTriangle := mkTriangle (A triangle) bisectorPoint (C triangle) in
  let overlapArea :=
    if decide (foldAngle > 90) then
      let reflectedB := reflectPoint (B triangle) (A triangle) bisectorPoint in
      let reflectedC := reflectPoint (C triangle) (A triangle) bisectorPoint in
      Rmin (getArea leftTriangle) (getArea rightTriangle)
      * sin (toRadians (Rmin foldAngle 180)) * 0.5
    else 0 in
  {| foldLine := foldLine;
     leftTriangle := leftTriangle;
     rightTriangle := rightTriangle;
     overlapArea := overlapArea;
     isValid := true |}.

(** A [number] argument that may be NaN.  Every comparison with NaN is
    false, and arithmetic and [Math.min] on NaN give NaN. *)
Inductive number := NaN | Num (value : R).

Definition number_lt (a : number) (b : R) : bool :=
  match a with Num v => bool_decide (v < b) | NaN => false end.

Definition number_ge (a : number) (b : R) : bool :=
  match a with Num v => bool_decide (v >= b) | NaN => false end.

Definition number_map (f : R -> R) (a : number) : number :=
  match a with Num v => Num (f v) | NaN => NaN end.

Record OverlapResult := mkOverlap {
  isOverlapping : bool;
  overlapPercentage : number;
  overlappingElements : list string
}.

Definition detectOverlap (triangle : Triangle) (foldAngle : number) : OverlapResult :=
  let threshold := 85 in
  if number_lt foldAngle threshold then
    {| isOverlapping := false; overlapPercentage := Num 0; overlappingElements := [] |}
  else
    let overlapPercentage :=
      number_map (fun a => Rmin 100 ((a - threshold) / (180 - threshold) * 100))
                 foldAngle in
    let overlappingElements : list string := [] in
    let overlappingElements :=
      if number_ge foldAngle 90 then ["angle-B"; "angle-C"]%string
      else overlappingElements in
    let overlappingElements :=
      if number_ge foldAngle 170
      then overlappingElements ++ ["side-BC-segments"%string]
      else overlappingElements in
    {| isOverlapping := true;
       overlapPercentage := overlapPercentage;
       overlappingElements := overlappingElements |}.

End Fold.

(** ** geometry/congruence.ts *)
Module Congruence.
Import Geometry.
#[local] Open Scope R_scope.

(** [Math.max] of three numbers. *)
Definition max3 (a b c : R) : R := Rmax (Rmax a b) c.

Definition RHS_condition : CongruenceCondition :=
  {| type := RHS;
     elements := ["right angle"; "hypotenuse"; "one side"]%string;
     isValid := true |}.

Definition checkRHS (triangle1 triangle2 : Triangle) (tolerance : R)
  : option CongruenceCondition :=
  let angles1 := angles (measureTriangle triangle1) in
  let angles2 := angles (measureTriangle triangle2) in
  let hasRightAngle1 :=
    isAngleEqual (angleA angles1) 90 tolerance ||
    isAngleEqual (angleB angles1) 90 tolerance ||
    isAngleEqual (angleC angles1) 90 tolerance in
  let hasRightAngle2 :=
    isAngleEqual (angleA angles2) 90 tolerance ||
    isAngleEqual (angleB angles2) 90 tolerance ||
    isAngleEqual (angleC angles2) 90 tolerance in
  if negb hasRightAngle1 || negb hasRightAngle2 then None
  else
    let sides1 := sides (measureTriangle triangle1) in
    let sides2 := sides (measureTriangle triangle2) in
    let hypotenuse1 := max3 (AB sides1) (AC sides1) (BC sides1) in
    let hypotenuse2 := max3 (AB sides2) (AC sides2) (BC sides2) in
    if isEqual hypotenuse1 hypotenuse2 tolerance then
      let otherSides1 :=
        filter (fun s => s <> hypotenuse1) [AB sides1; AC sides1; BC sides1] in
      let otherSides2 :=
        filter (fun s => s <> hypotenuse2) [AB sides2; AC sides2; BC sides2] in
      (* the two nested loops leave at the first pair within tolerance *)
      if existsb (fun side1 =>
                    existsb (fun side2 => isEqual side1 side2 tolerance) otherSides2)
                 otherSides1
      then Some RHS_condition
      else None
    else None.

(** *** The other congruence checks *)

(** One correspondence tried by [checkSAS]: two sides and the angle between
    them, of either triangle, and the labels reported on a match. *)
Record SASCorrespondence := mkSAS {
  sas_sides : R * R;
  sas_angle : R;
  sas_otherSides : R * R;
  sas_otherAngle : R;
  sas_elements : list string
}.

Definition checkSAS (triangle1 triangle2 : Triangle) (tolerance : R)
  : option CongruenceCondition :=
  let measurements1 := measureTriangle triangle1 in
  let measurements2 := measureTriangle triangle2 in
  let sides1 := sides measurements1 in
  let sides2 := sides measurements2 in
  let angles1 := angles measurements1 in
  let angles2 := angles measurements2 in
  let patterns :=
    [ mkSAS (AB sides1, AC sides1) (angleA angles1)
            (AB sides2, AC sides2) (angleA angles2)
            ["AB"; "AC"; "angle A"]%string;
      mkSAS (AB sides1, BC sides1) (angleB angles1)
            (AB sides2, BC sides2) (angleB angles2)
            ["AB"; "BC"; "angle B"]%string;
      mkSAS (AC sides1, BC sides1) (angleC angles1)
            (AC sides2, BC sides2) (angleC angles2)
            ["AC"; "BC"; "angle C"]%string ] in
  match
    find (fun pattern =>
            isEqual (fst (sas_sides pattern)) (fst (sas_otherSides pattern)) tolerance
            && isEqual (snd (sas_sides pattern)) (snd (sas_otherSides pattern)) tolerance
            && isAngleEqual (sas_angle pattern) (sas_otherAngle pattern) tolerance)
         patterns
  with
  | Some pattern =>
      Some {| type := SAS; elements := sas_elements pattern; isValid := true |}
  | None => None
  end.

Record ASACorrespondence := mkASA {
  asa_angles : R * R;
  asa_side : R;
  asa_otherAngles : R * R;
  asa_otherSide : R;
  asa_elements : list string
}.

Definition checkASA (triangle1 triangle2 : Triangle) (tolerance : R)
  : option CongruenceCondition :=
  let measurements1 := measureTriangle triangle1 in
  let measurements2 := measureTriangle triangle2 in
  let sides1 := sides measurements1 in
  let sides2 := sides measurements2 in
  let angles1 := angles measurements1 in
  let angles2 := angles measurements2 in
  let patterns :=
    [ mkASA (angleA angles1, angleB angles1) (AB sides1)
            (angleA angles2, angleB angles2) (AB sides2)
            ["angle A"; "AB"; "angle B"]%string;
      mkASA (angleB angles1, angleC angles1) (BC sides1)
            (angleB angles2, angleC angles2) (BC sides2)
            ["angle B"; "BC"; "angle C"]%string;
      mkASA (angleA angles1, angleC angles1) (AC sides1)
            (angleA angles2, angleC angles2) (AC sides2)
            ["angle A"; "AC"; "angle C"]%string ] in
  match
    find (fun pattern =>
            isAngleEqual (fst (asa_angles pattern)) (fst (asa_otherAngles pattern)) tolerance
            && isAngleEqual (snd (asa_angles pattern)) (snd (asa_otherAngles pattern)) tolerance
            && isEqual (asa_side pattern) (asa_otherSide pattern) tolerance)
         patterns
  with
  | Some pattern =>
      Some {| type := ASA; elements := asa_elements pattern; isValid := true |}
  | None => None
  end.

Definition checkSSS (triangle1 triangle2 : Triangle) (tolerance : R)
  : option CongruenceCondition :=
  let sides1 := sides (measureTriangle triangle1) in
  let sides2 := sides (measureTriangle triangle2) in
  if isEqual (AB sides1) (AB sides2) tolerance
     && isEqual (AC sides1) (AC sides2) tolerance
     && isEqual (BC sides1) (BC sides2) tolerance
  then Some {| type := SSS; elements := ["AB"; "AC"; "BC"]%string; isValid := true |}
  else None.

Definition checkRHA (triangle1 triangle2 : Triangle) (tolerance : R)
  : option CongruenceCondition :=
  let measurements1 := measureTriangle triangle1 in
  let measurements2 := measureTriangle triangle2 in
  let angles1 := angles measurements1 in
  let angles2 := angles measurements2 in
  let hasRightAngle1 :=
    isAngleEqual (angleA angles1) 90 tolerance ||
    isAngleEqual (angleB angles1) 90 tolerance ||
    isAngleEqual (angleC angles1) 90 tolerance in
  let hasRightAngle2 :=
    isAngleEqual (angleA angles2) 90 tolerance ||
    isAngleEqual (angleB angles2) 90 tolerance ||
    isAngleEqual (angleC angles2) 90 tolerance in
  if negb hasRightAngle1 || negb hasRightAngle2 then None
  else
    let sides1 := sides measurements1 in
    let sides2 := sides measurements2 in
    let hypotenuse1 := max3 (AB sides1) (AC sides1) (BC sides1) in
    let hypotenuse2 := max3 (AB sides2) (AC sides2) (BC sides2) in
    if isEqual hypotenuse1 hypotenuse2 tolerance then
      let acuteAngles1 :=
        filter (fun a => a < 89) [angleA angles1; angleB angles1; angleC angles1] in
      let acuteAngles2 :=
        filter (fun a => a < 89) [angleA angles2; angleB angles2; angleC angles2] in
      if existsb (fun angle1 =>
                    existsb (fun angle2 => isAngleEqual angle1 angle2 tolerance)
                            acuteAngles2)
                 acuteAngles1
      then Some {| type := RHA;
                   elements := ["right angle"; "hypotenuse"; "one acute angle"]%string;
                   isValid := true |}
      else None
    else None.

(** The loop of [checkCongruence] over a list of suspended checks: the first
    result that is not null. *)
Fixpoint firstResult (conditions : list (unit -> option CongruenceCondition))
  : option CongruenceCondition :=
  match conditions with
  | [] => None
  | checkCondition :: rest =>
      match checkCondition tt with
      | Some result => Some result
      | None => firstResult rest
      end
  end.

Definition checkCongruence (triangle1 triangle2 : Triangle) (tolerance : R)
  : option CongruenceCondition :=
  let conditions :=
    [ fun _ : unit => checkSAS triangle1 triangle2 tolerance;
      fun _ : unit => checkASA triangle1 triangle2 tolerance;
      fun _ : unit => checkSSS triangle1 triangle2 tolerance;
      fun _ : unit => checkRHS triangle1 triangle2 tolerance;
      fun _ : unit => checkRHA triangle1 triangle2 tolerance ] in
  firstResult conditions.


End Congruence.

(** ** Geometry sample generators for demos and tests *)
Module Samples.
Import Geometry.
#[local] Open Scope R_scope.

(** [createRightTrianglesPair()]: two congruent right triangles with the
    right angle at A, the second a translated copy of the first. *)
Definition createRightTrianglesPair : Triangle * Triangle :=
  let t1 := mkTriangle (mkPoint 1 1) (mkPoint 1 2.5) (mkPoint 3 1) in
  let t2 := mkTriangle (mkPoint 5 1) (mkPoint 5 2.5) (mkPoint 7 1) in
  (t1, t2).

End Samples.

(** ** features/ch3/m2-rhs/state/useRhsActivity.ts *)
Module RhsActivity.
Import Geometry.
#[local] Open Scope R_scope.

(** [createRightTrianglesPair()] of the RHS activity: [t1] has its right
    angle at C, [t2] at B; the hook validates the pair with
    [checkRHS(t1, t2)]. *)
Definition createRightTrianglesPair : Triangle * Triangle :=
  let t1 := mkTriangle (mkPoint 2.6 1.0) (mkPoint 0.8 2.5) (mkPoint 2.6 2.5) in
  let t2 := mkTriangle (mkPoint 0.8 1.0) (mkPoint 0.8 2.5) (mkPoint 2.6 2.5) in
  (t1, t2).

(** [rhsValidated]: false until all chips are collected, then
    [!!checkRHS(t1, t2)]; the activity is complete when it is true. *)
Definition rhsValidated (allChipsCollected : bool) : bool :=
  let '(t1, t2) := createRightTrianglesPair in
  if negb allChipsCollected then false
  else bool_decide (is_Some (Congruence.checkRHS t1 t2 default_tolerance)).

End RhsActivity.

(** ** Geometric constraints (the constraints module of the geometry core) *)
Module Constraints.
Import Geometry.
#[local] Open Scope R_scope.

Inductive ConstraintType :=
| equal_sides | equal_angles | perpendicular | parallel
| angle_bisector | perpendicular_bisector.

Record GeometricConstraint := mkConstraint {
  id : string;
  type : ConstraintType;
  elements : list string;
  satisfied : bool;
  tolerance : R
}.

Definition createConstraint (id : string) (type : ConstraintType)
    (elements : list string) (tolerance : R) : GeometricConstraint :=
  {| id := id; type := type; elements := elements;
     satisfied := false; tolerance := tolerance |}.

(** [sideMap[name]]: the side length under a known name, [undefined]
    otherwise. *)
Definition sideMap (sideValues : Sides) (name : string) : option R :=
  if decide (name = "AB"%string) then Some (AB sideValues)
  else if decide (name = "AC"%string) then Some (AC sideValues)
  else if decide (name = "BC"%string) then Some (BC sideValues)
  else None.

Definition angleMap (angleValues : Angles) (name : string) : option R :=
  if decide (name = "A"%string) then Some (angleA angleValues)
  else if decide (name = "B"%string) then Some (angleB angleValues)
  else if decide (name = "C"%string) then Some (angleC angleValues)
  else None.

(** [isEqual] on values that may be [undefined]: arithmetic on [undefined]
    gives NaN, and every comparison with NaN is false. *)
Definition isEqual_undefined (v1 v2 : option R) (tolerance : R) : bool :=
  match v1, v2 with
  | Some a, Some b => isEqual a b tolerance
  | _, _ => false
  end.

Definition checkEqualSides (triangle : Triangle) (sides : string * string)
    (tolerance : R) : bool :=
  let measurements := measureTriangle triangle in
  let sideValues := Geometry.sides measurements in
  let '(side1, side2) := sides in
  isEqual_undefined (sideMap sideValues side1) (sideMap sideValues side2) tolerance.

Definition checkEqualAngles (triangle : Triangle) (angles : string * string)
    (tolerance : R) : bool :=
  let measurements := measureTriangle triangle in
  let angleValues := Geometry.angles measurements in
  let '(angle1, angle2) := angles in
  isEqual_undefined (angleMap angleValues angle1) (angleMap angleValues angle2) tolerance.

Definition checkAngleBisector (triangle : Triangle) (vertex : string)
    (bisectorPoint : Point) (tolerance : R) : bool :=
  if decide (vertex <> "A"%string) then false
  else
    let leftTriangle := mkTriangle (A triangle) (B triangle) bisectorPoint in
    let rightTriangle := mkTriangle (A triangle) bisectorPoint (C triangle) in
    let leftAngle := angleA (angles (measureTriangle leftTriangle)) in
    let rightAngle := angleA (angles (measureTriangle rightTriangle)) in
    isAngleEqual leftAngle rightAngle tolerance.

Definition checkPerpendicular (line1 line2 : Point * Point) (tolerance : R) : bool :=
  let '(p1, p2) := line1 in
  let '(p3, p4) := line2 in
  let v1 := mkPoint (x p2 - x p1) (y p2 - y p1) in
  let v2 := mkPoint (x p4 - x p3) (y p4 - y p3) in
  let dotProduct := x v1 * x v2 + y v1 * y v2 in
  bool_decide (Rabs dotProduct < tolerance).

Definition distanceFromPointToLine (point lineStart lineEnd : Point) : R :=
  let lineLength := distance lineStart lineEnd in
  if decide (lineLength = 0) then distance point lineStart
  else
    let t :=
      Rmax 0 (Rmin 1
        (((x point - x lineStart) * (x lineEnd - x lineStart)
          + (y point - y lineStart) * (y lineEnd - y lineStart))
         / (lineLength * lineLength))) in
    let projection :=
      mkPoint (x lineStart + t * (x lineEnd - x lineStart))
              (y lineStart + t * (y lineEnd - y lineStart)) in
    distance point projection.

Definition checkPerpendicularBisector (segment bisector : Point * Point)
    (tolerance : R) : bool :=
  let '(segStart, segEnd) := segment in
  let '(bisStart, bisEnd) := bisector in
  let isPerpendicular := checkPerpendicular segment bisector tolerance in
  let midpoint :=
    mkPoint ((x segStart + x segEnd) / 2) ((y segStart + y segEnd) / 2) in
  let distanceToLine := distanceFromPointToLine midpoint bisStart bisEnd in
  let passesThroughMidpoint := bool_decide (distanceToLine < tolerance) in
  isPerpendicular && passesThroughMidpoint.

(** The optional [additionalData] argument of [validateConstraint], with the
    three properties the function reads. *)
Record AdditionalData := mkAdditionalData {
  bisectorPoint : option Point;
  segment : option (Point * Point);
  bisector : option (Point * Point)
}.

Definition validateConstraint (constraint : GeometricConstraint)
    (triangle : Triangle) (additionalData : option AdditionalData) : bool :=
  match type constraint with
  | equal_sides =>
      match elements constraint with
      | e0 :: e1 :: _ => checkEqualSides triangle (e0, e1) (tolerance constraint)
      | _ => false
      end
  | equal_angles =>
      match elements constraint with
      | e0 :: e1 :: _ => checkEqualAngles triangle (e0, e1) (tolerance constraint)
      | _ => false
      end
  | angle_bisector =>
      match elements constraint, additionalData ≫= bisectorPoint with
      | e0 :: _, Some point =>
          checkAngleBisector triangle e0 point (tolerance constraint)
      | _, _ => false
      end
  | perpendicular_bisector =>
      match additionalData ≫= segment, additionalData ≫= bisector with
      | Some seg, Some bis => checkPerpendicularBisector seg bis (tolerance constraint)
      | _, _ => false
      end
  | _ => false
  end.

(** [CONSTRAINT_TEMPLATES] *)
Definition ISOSCELES_EQUAL_SIDES (tolerance : R) : GeometricConstraint :=
  {| id := "isosceles-equal-sides"; type := equal_sides;
     elements := ["AB"; "AC"]%string; satisfied := false; tolerance := tolerance |}.

Definition ISOSCELES_EQUAL_BASE_ANGLES (tolerance : R) : GeometricConstraint :=
  {| id := "isosceles-equal-base-angles"; type := equal_angles;
     elements := ["B"; "C"]%string; satisfied := false; tolerance := tolerance |}.

Definition APEX_ANGLE_BISECTOR (tolerance : R) : GeometricConstraint :=
  {| id := "apex-angle-bisector"; type := angle_bisector;
     elements := ["A"]%string; satisfied := false; tolerance := tolerance |}.

Definition PERPENDICULAR_BISECTOR_BASE (tolerance : R) : GeometricConstraint :=
  {| id := "perpendicular-bisector-base"; type := perpendicular_bisector;
     elements := ["BC"; "AD"]%string; satisfied := false; tolerance := tolerance |}.

End Constraints.

(** ** engine/chip-system.ts *)
Module ChipSystem.
Import Geometry.
#[local] Open Scope string_scope.

Inductive ChipType := side | angle | common | given.

Definition ValidationRule : Type := Triangle -> option Point -> bool.

Record Chip := mkChip {
  id : string;
  label : string;
  type : ChipType;
  collected : bool;
  description : string;
  isAvailable : bool;
  validationRule : option ValidationRule;
  hint : option string;
  order : Z
}.

(** [Omit<Chip, 'collected' | 'isAvailable'>]: a chip before the two flags
    are attached. *)
Definition ChipDefinition : Type := bool -> bool -> Chip.

Definition chipDef (id label : string) (type : ChipType) (description hint : string)
    (order : Z) (validationRule : ValidationRule) : ChipDefinition :=
  fun collected isAvailable =>
    {| id := id; label := label; type := type; collected := collected;
       description := description; isAvailable := isAvailable;
       validationRule := Some validationRule; hint := Some hint; order := order |}.

Definition CHIP_DEFINITIONS : list ChipDefinition :=
  [ chipDef "side-AB" "변 AB" given "주어진 조건 (이등변삼각형)"
      "이등변삼각형의 두 등변 중 하나" 1
      (fun triangle _ => isIsosceles triangle default_tolerance);
    chipDef "side-AC" "변 AC" given "주어진 조건 (이등변삼각형)"
      "이등변삼각형의 두 등변 중 하나" 2
      (fun triangle _ => isIsosceles triangle default_tolerance);
    chipDef "side-BC" "변 BC" side "밑변. SAS에는 포함되지 않음"
      "밑변 자체는 SAS에 직접 쓰이지 않습니다" 6 (fun _ _ => true);
    chipDef "side-BD" "변 BD" side "보조 변 BD. SAS에는 포함되지 않음"
      "접은 선 D와 B를 잇는 선분입니다" 9 (fun _ _ => true);
    chipDef "side-CD" "변 CD" side "보조 변 CD. SAS에는 포함되지 않음"
      "접은 선 D와 C를 잇는 선분입니다" 10 (fun _ _ => true);
    chipDef "common-AD" "공통변 AD" common "두 삼각형이 공유하는 변"
      "접은 선이 만든 두 삼각형이 공통으로 가지는 변" 3 (fun _ _ => true);
    chipDef "angle-BAD" "∠BAD" angle "접은 선이 만드는 각"
      "각의 이등분선이 만든 각 중 하나" 4 (fun _ _ => true);
    chipDef "angle-CAD" "∠CAD" angle "접은 선이 만드는 각 (각의 이등분선)"
      "각의 이등분선이 만든 각 중 하나" 5 (fun _ _ => true);
    chipDef "angle-B" "∠B" angle "밑각 B. 대응각 개념 확인용"
      "밑각은 대응각 개념 이해에 사용됩니다" 7 (fun _ _ => true);
    chipDef "angle-C" "∠C" angle "밑각 C. 대응각 개념 확인용"
      "밑각은 대응각 개념 이해에 사용됩니다" 8 (fun _ _ => true) ].

Record SASPattern := mkPattern {
  name : string;
  requiredChips : list string;
  patternDescription : string
}.

(** [Array.prototype.includes] on an array of strings. *)
Definition includes (l : list string) (s : string) : bool := bool_decide (s ∈ l).

Definition SAS_PATTERNS : list SASPattern :=
  [ {| name := "Standard SAS";
       requiredChips :=
         take 3 ["side-AB"; "side-AC"; "common-AD"; "angle-BAD"; "angle-CAD"];
       patternDescription := "변-각-변 순서로 배치된 SAS 조건" |};
    {| name := "Alternative SAS";
       requiredChips :=
         take 3 (filter (fun id => id <> "angle-BAD")
                   ["side-AB"; "side-AC"; "common-AD"; "angle-BAD"; "angle-CAD"]);
       patternDescription := "다른 방향의 변-각-변 SAS 조건" |};
    {| name := "Complete SAS";
       requiredChips := ["side-AB"; "side-AC"; "common-AD"];
       patternDescription := "두 등변과 공통변" |} ].

(** *** [Map<string, V>] and [Set<string>], in insertion order *)

Fixpoint map_get {V : Type} (m : list (string * V)) (k : string) : option V :=
  match m with
  | [] => None
  | (k', v) :: m' => if decide (k' = k) then Some v else map_get m' k
  end.

(** [set] on a present key replaces the value in place; on an absent key it
    appends the entry. *)
Fixpoint map_set {V : Type} (m : list (string * V)) (k : string) (v : V)
  : list (string * V) :=
  match m with
  | [] => [(k, v)]
  | (k', v') :: m' =>
      if decide (k' = k) then (k', v) :: m' else (k', v') :: map_set m' k v
  end.

(** [m.forEach((v, k) => m.set(k, f v))]: every entry is visited once and
    overwritten under its own key. *)
Definition map_forEach_set {V : Type} (f : V -> V) (m : list (string * V))
  : list (string * V) :=
  foldl (fun acc '(k, v) => map_set acc k (f v)) m m.

Definition keys {V : Type} (m : list (string * V)) : list string := map fst m.

Definition set_add (s : list string) (k : string) : list string :=
  if decide (k ∈ s) then s else s ++ [k].

Definition set_delete (s : list string) (k : string) : list string :=
  filter (fun k' => k' <> k) s.

(** *** [class ChipSystemManager] *)

Record ChipSystemManager := mkManager {
  chips : list (string * Chip);
  collectedChips : list string
}.

Definition with_collected (chip : Chip) (b : bool) : Chip :=
  {| id := id chip; label := label chip; type := type chip; collected := b;
     description := description chip; isAvailable := isAvailable chip;
     validationRule := validationRule chip; hint := hint chip; order := order chip |}.

Definition with_isAvailable (chip : Chip) (b : bool) : Chip :=
  {| id := id chip; label := label chip; type := type chip; collected := collected chip;
     description := description chip; isAvailable := b;
     validationRule := validationRule chip; hint := hint chip; order := order chip |}.

Definition initializeChips : list (string * Chip) :=
  foldl (fun acc (chipDef : ChipDefinition) =>
           let chip := chipDef false false in
           map_set acc (id chip) chip)
        [] CHIP_DEFINITIONS.

(** [new ChipSystemManager()]. *)
Definition new : ChipSystemManager :=
  {| chips := initializeChips; collectedChips := [] |}.

Definition updateAvailability (this : ChipSystemManager)
    (triangle : Triangle) (foldPoint : option Point) : ChipSystemManager :=
  {| chips :=
       map_forEach_set
         (fun chip =>
            match validationRule chip with
            | Some rule => with_isAvailable chip (rule triangle foldPoint)
            | None => with_isAvailable chip true
            end)
         (chips this);
     collectedChips := collectedChips this |}.

Definition collectChip (this : ChipSystemManager) (chipId : string)
    (triangle : Triangle) (foldPoint : option Point) : bool * ChipSystemManager :=
  match map_get (chips this) chipId with
  | None => (false, this)
  | Some chip =>
      if collected chip || negb (isAvailable chip) then (false, this)
      else
        let ruleFails :=
          match validationRule chip with
          | Some rule => negb (rule triangle foldPoint)
          | None => false
          end in
        if ruleFails then (false, this)
        else
          (true,
           {| chips := map_set (chips this) chipId (with_collected chip true);
              collectedChips := set_add (collectedChips this) chipId |})
  end.

Definition uncollectChip (this : ChipSystemManager) (chipId : string)
  : bool * ChipSystemManager :=
  match map_get (chips this) chipId with
  | None => (false, this)
  | Some chip =>
      if negb (collected chip) then (false, this)
      else
        (true,
         {| chips := map_set (chips this) chipId (with_collected chip false);
            collectedChips := set_delete (collectedChips this) chipId |})
  end.

(** [Array.prototype.sort] with the comparator [a.order - b.order]: a stable
    sort by ascending [order]. *)
Fixpoint insertByOrder (chip : Chip) (l : list Chip) : list Chip :=
  match l with
  | [] => [chip]
  | c :: l' =>
      if decide (order c <= order chip)%Z then c :: insertByOrder chip l'
      else chip :: c :: l'
  end.

Definition sortByOrder (l : list Chip) : list Chip :=
  foldl (fun acc chip => insertByOrder chip acc) [] l.

Definition getAvailableChips (this : ChipSystemManager) : list Chip :=
  sortByOrder (filter (fun chip => isAvailable chip = true) (map snd (chips this))).

Definition getCollectedChips (this : ChipSystemManager) : list Chip :=
  sortByOrder (filter (fun chip => collected chip = true) (map snd (chips this))).

Definition checkSASCompletion (this : ChipSystemManager) : bool :=
  let collectedIds := collectedChips this in
  existsb (fun pattern =>
             forallb (fun chipId => includes collectedIds chipId)
                     (requiredChips pattern))
          SAS_PATTERNS.

Definition reset (this : ChipSystemManager) : ChipSystemManager :=
  {| chips :=
       map_forEach_set
         (fun chip => with_isAvailable (with_collected chip false) false)
         (chips this);
     collectedChips := [] |}.

Record Progress := mkProgress {
  progress_collected : nat;
  progress_available : nat;
  progress_total : nat;
  progress_percentage : R
}.

(** [Math.round]: the nearest integer, halves upwards. *)
Definition Math_round (v : R) : R := IZR (Int_part (v + 0.5)).

Definition getProgress (this : ChipSystemManager) : Progress :=
  let available := length (getAvailableChips this) in
  let collected := length (collectedChips this) in
  let total := length (chips this) in
  {| progress_collected := collected;
     progress_available := available;
     progress_total := total;
     progress_percentage :=
       if decide (0 < total)%nat
       then Math_round ((INR collected / INR total) * 100)%R
       else 0%R |}.

Record ChipState := mkChipState {
  state_collected : bool;
  state_isAvailable : bool
}.

(** The serializable record exchanged by [exportState] and [importState];
    [chipStates] lists the entries of the object in key order. *)
Record SavedState := mkSavedState {
  saved_collectedChips : list string;
  chipStates : list (string * ChipState)
}.

(** The callback of [this.chips.forEach] in [exportState]. *)
Definition exportEntry (chipStates : list (string * ChipState))
    (entry : string * Chip) : list (string * ChipState) :=
  let '(id, chip) := entry in
  map_set chipStates id
    {| state_collected := collected chip; state_isAvailable := isAvailable chip |}.

Definition exportState (this : ChipSystemManager) : SavedState :=
  let chipStates := foldl exportEntry [] (chips this) in
  {| saved_collectedChips := collectedChips this;
     chipStates := chipStates |}.

(** The callback of [Object.entries(state.chipStates).forEach] in
    [importState]. *)
Definition importEntry (chips : list (string * Chip))
    (entry : string * ChipState) : list (string * Chip) :=
  let '(id, chipState) := entry in
  match map_get chips id with
  | Some chip =>
      map_set chips id
        (with_isAvailable
           (with_collected chip (state_collected chipState))
           (state_isAvailable chipState))
  | None => chips
  end.

Definition importState (this : ChipSystemManager) (state : SavedState)
  : ChipSystemManager :=
  {| chips := foldl importEntry (chips this) (chipStates state);
     collectedChips := foldl set_add [] (saved_collectedChips state) |}.

Definition isSASChipSetComplete (collectedChipIds : list string) : bool :=
  let hasAngles :=
    includes collectedChipIds "angle-BAD" && includes collectedChipIds "angle-CAD" in
  let hasSides :=
    includes collectedChipIds "side-AB" && includes collectedChipIds "side-AC" in
  let hasCommon := includes collectedChipIds "common-AD" in
  hasAngles && hasSides && hasCommon.

(** The required set named by the specification. *)
Definition REQUIRED_SAS_CHIPS : list string :=
  ["angle-BAD"; "angle-CAD"; "side-AB"; "side-AC"; "common-AD"].

(** *** Validation of the collection and hints *)

Record ChipCombination := mkCombination {
  combination_isValid : bool;
  combination_congruenceType : option CongruenceType;
  combination_missingChips : list string
}.

Definition validateChipCombination (collectedChipIds : list string) : ChipCombination :=
  let required := ["angle-BAD"; "angle-CAD"; "side-AB"; "side-AC"; "common-AD"] in
  let missing := filter (fun id => includes collectedChipIds id = false) required in
  let isValid := bool_decide (length missing = 0) in
  {| combination_isValid := isValid;
     combination_congruenceType := if isValid then Some SAS else None;
     combination_missingChips := missing |}.

Record ChipValidationResult := mkValidation {
  isValid : bool;
  congruenceType : option CongruenceType;
  missingChips : list string;
  completionPercentage : R;
  feedback : string
}.

(** A congruence type, or null, inside a template literal. *)
Definition showCongruenceType (t : option CongruenceType) : string :=
  match t with
  | Some SSS => "SSS" | Some SAS => "SAS" | Some ASA => "ASA"
  | Some RHS => "RHS" | Some RHA => "RHA"
  | None => "null"
  end.

Definition getChipLabel (this : ChipSystemManager) (chipId : string) : string :=
  match map_get (chips this) chipId with
  | Some chip => label chip
  | None => chipId
  end.

Definition validateCollection (this : ChipSystemManager)
    (triangle : Triangle) (foldPoint : option Point) : ChipValidationResult :=
  let collectedIds := collectedChips this in
  let validation := validateChipCombination collectedIds in
  let '(feedback, completionPercentage) :=
    if combination_isValid validation then
      ("완벽합니다! " ++ showCongruenceType (combination_congruenceType validation)
         ++ " 합동 조건을 모두 찾았습니다.",
       100%R)
    else
      let missing := combination_missingChips validation in
      let completionPercentage :=
        Math_round ((INR (length collectedIds) / 4) * 100)%R in
      let feedback :=
        match missing with
        | [only] =>
            "거의 다 했어요! " ++ getChipLabel this only ++ "이(가) 더 필요합니다."
        | _ =>
            if decide (length missing <= 2)%nat then
              "좋은 시작이에요! " ++ pretty (length missing)
                ++ "개의 조건이 더 필요합니다."
            else "더 많은 조건을 찾아보세요!"
        end in
      (feedback, completionPercentage) in
  {| isValid := combination_isValid validation;
     congruenceType := combination_congruenceType validation;
     missingChips := combination_missingChips validation;
     completionPercentage := completionPercentage;
     feedback := feedback |}.

Definition getNextHint (this : ChipSystemManager)
    (triangle : Triangle) (foldPoint : option Point) : string :=
  let validation := validateCollection this triangle foldPoint in
  if isValid validation then
    "모든 조건을 찾았습니다! 다음 단계로 진행하세요."
  else
    let fallback := "삼각형의 변과 각을 클릭해서 조건을 찾아보세요!" in
    match missingChips validation with
    | first :: _ =>
        match map_get (chips this) first with
        | Some nextChip =>
            match hint nextChip with
            | Some h =>
                if decide (h = "") then label nextChip ++ "을(를) 찾아보세요." else h
            | None => label nextChip ++ "을(를) 찾아보세요."
            end
        | None => fallback
        end
    | [] => fallback
    end.

(** *** Sequences of operations on one manager *)

Inductive Operation :=
| UpdateAvailability (triangle : Triangle) (foldPoint : option Point)
| CollectChip (chipId : string) (triangle : Triangle) (foldPoint : option Point)
| UncollectChip (chipId : string)
| Reset
| ImportState (state : SavedState).

Definition perform (this : ChipSystemManager) (op : Operation) : ChipSystemManager :=
  match op with
  | UpdateAvailability triangle foldPoint => updateAvailability this triangle foldPoint
  | CollectChip chipId triangle foldPoint => snd (collectChip this chipId triangle foldPoint)
  | UncollectChip chipId => snd (uncollectChip this chipId)
  | Reset => reset this
  | ImportState state => importState this state
  end.

(** The manager reached from a fresh one by a sequence of operations. *)
Definition after (ops : list Operation) : ChipSystemManager := foldl perform new ops.

End ChipSystem.

(** ** engine/activity-machine.ts *)
Module ActivityMachine.
#[local] Open Scope string_scope.

(** The state nodes of the machine. *)
Inductive State :=
  action | inquiry | discovery | misconception | justification | completed.

#[global] Instance State_eq_dec : EqDecision State.
Proof. solve_decision. Defined.

(** [Record<LearningStep, boolean>]. *)
Record StepCompletion := mkStepCompletion {
  step_action : bool;
  step_inquiry : bool;
  step_discovery : bool;
  step_misconception : bool;
  step_justification : bool
}.

(** A [Date], as its time value. *)
Definition Date : Type := Z.

Record ActivityContext := mkContext {
  foldAngle : R;
  collectedChips : list string;
  selectedAnswer : option string;
  highlightedElements : list string;
  stepCompletion : StepCompletion;
  error : option string;
  completedAt : option Date
}.

Inductive ActivityEvent :=
| SET_FOLD_ANGLE (angle : R)
| COLLECT_CHIP (chipId : string)
| SELECT_ANSWER (answer : string)
| HIGHLIGHT_ELEMENTS (elements : list string)
| COMPLETE_STEP
| PROCEED_TO_NEXT
| PROCEED_TO_PREV
| RESET_MODULE
| VALIDATE_PROGRESS
| SKIP_DISCOVERY
| BACK_TO_DISCOVERY
| ERROR (error : string).

(** The [type] tag of an event. *)
Inductive EventType :=
| T_SET_FOLD_ANGLE | T_COLLECT_CHIP | T_SELECT_ANSWER | T_HIGHLIGHT_ELEMENTS
| T_COMPLETE_STEP | T_PROCEED_TO_NEXT | T_PROCEED_TO_PREV | T_RESET_MODULE
| T_VALIDATE_PROGRESS | T_SKIP_DISCOVERY | T_BACK_TO_DISCOVERY | T_ERROR.

Definition eventType (event : ActivityEvent) : EventType :=
  match event with
  | SET_FOLD_ANGLE _ => T_SET_FOLD_ANGLE
  | COLLECT_CHIP _ => T_COLLECT_CHIP
  | SELECT_ANSWER _ => T_SELECT_ANSWER
  | HIGHLIGHT_ELEMENTS _ => T_HIGHLIGHT_ELEMENTS
  | COMPLETE_STEP => T_COMPLETE_STEP
  | PROCEED_TO_NEXT => T_PROCEED_TO_NEXT
  | PROCEED_TO_PREV => T_PROCEED_TO_PREV
  | RESET_MODULE => T_RESET_MODULE
  | VALIDATE_PROGRESS => T_VALIDATE_PROGRESS
  | SKIP_DISCOVERY => T_SKIP_DISCOVERY
  | BACK_TO_DISCOVERY => T_BACK_TO_DISCOVERY
  | ERROR _ => T_ERROR
  end.

Definition initialContext : ActivityContext :=
  {| foldAngle := 0;
     collectedChips := [];
     selectedAnswer := None;
     highlightedElements := [];
     stepCompletion :=
       {| step_action := false; step_inquiry := false; step_discovery := false;
          step_misconception := false; step_justification := false |};
     error := None;
     completedAt := None |}.

(** *** guards *)

Inductive Guard :=
  canProceedFromAction | canProceedFromInquiry | canProceedFromDiscovery | hasValidChip.

Definition evalGuard (guard : Guard) (context : ActivityContext)
    (event : ActivityEvent) : bool :=
  match guard with
  | canProceedFromAction => bool_decide (foldAngle context >= 90)%R
  | canProceedFromInquiry =>
      bool_decide (selectedAnswer context = Some "congruence")
  | canProceedFromDiscovery =>
      let ids := collectedChips context in
      existsb (fun p =>
                 forallb (fun id => ChipSystem.includes ids id)
                         (ChipSystem.requiredChips p))
              ChipSystem.SAS_PATTERNS
  | hasValidChip =>
      match event with
      | COLLECT_CHIP chipId =>
          let validIds :=
            map (fun c : ChipSystem.ChipDefinition => ChipSystem.id (c false false))
                ChipSystem.CHIP_DEFINITIONS in
          ChipSystem.includes validIds chipId
          && negb (ChipSystem.includes (collectedChips context) chipId)
      | _ => false
      end
  end.

(** *** actions

    Each action is an [assign]: the fields it returns are merged into the
    current context and every other field is kept. *)

Inductive Action :=
| setFoldAngle | collectChip | selectAnswer | highlightElements
| markActionCompleted | markInquiryCompleted | markDiscoveryCompleted
| markJustificationCompleted | setError | clearError | resetToInitial
| markCompleted.

Definition set_foldAngle (c : ActivityContext) (v : R) : ActivityContext :=
  mkContext v (collectedChips c) (selectedAnswer c) (highlightedElements c)
            (stepCompletion c) (error c) (completedAt c).

Definition set_collectedChips (c : ActivityContext) (v : list string) : ActivityContext :=
  mkContext (foldAngle c) v (selectedAnswer c) (highlightedElements c)
            (stepCompletion c) (error c) (completedAt c).

Definition set_selectedAnswer (c : ActivityContext) (v : option string) : ActivityContext :=
  mkContext (foldAngle c) (collectedChips c) v (highlightedElements c)
            (stepCompletion c) (error c) (completedAt c).

Definition set_highlightedElements (c : ActivityContext) (v : list string)
  : ActivityContext :=
  mkContext (foldAngle c) (collectedChips c) (selectedAnswer c) v
            (stepCompletion c) (error c) (completedAt c).

Definition set_stepCompletion (c : ActivityContext) (v : StepCompletion)
  : ActivityContext :=
  mkContext (foldAngle c) (collectedChips c) (selectedAnswer c) (highlightedElements c)
            v (error c) (completedAt c).

Definition set_error (c : ActivityContext) (v : option string) : ActivityContext :=
  mkContext (foldAngle c) (collectedChips c) (selectedAnswer c) (highlightedElements c)
            (stepCompletion c) v (completedAt c).

Definition set_completedAt (c : ActivityContext) (v : option Date) : ActivityContext :=
  mkContext (foldAngle c) (collectedChips c) (selectedAnswer c) (highlightedElements c)
            (stepCompletion c) (error c) v.

(** [now] is the value of [new Date()] when the event is processed; the
    [console.log] calls of [setFoldAngle] leave the context alone and are not
    modelled.  The angle of a SET_FOLD_ANGLE event ranges over the numbers
    other than NaN; NaN passes the [typeof] test of [setFoldAngle] and is
    stored as it is, since [Math.max(0, Math.min(180, NaN))] is NaN. *)
Definition exec (now : Date) (context : ActivityContext) (event : ActivityEvent)
    (act : Action) : ActivityContext :=
  match act with
  | setFoldAngle =>
      set_foldAngle context
        match event with
        | SET_FOLD_ANGLE a => Rmax 0 (Rmin 180 a)
        | _ => foldAngle context
        end
  | collectChip =>
      set_collectedChips context
        match event with
        | COLLECT_CHIP chipId =>
            if negb (ChipSystem.includes (collectedChips context) chipId)
            then collectedChips context ++ [chipId]
            else collectedChips context
        | _ => collectedChips context
        end
  | selectAnswer =>
      set_selectedAnswer context
        match event with
        | SELECT_ANSWER answer => Some answer
        | _ => selectedAnswer context
        end
  | highlightElements =>
      set_highlightedElements context
        match event with
        | HIGHLIGHT_ELEMENTS elements =>
            let prev := highlightedElements context in
            let next := elements in
            (* Array.from(new Set([...prev, ...next])) *)
            foldl ChipSystem.set_add [] (prev ++ next)
        | _ => highlightedElements context
        end
  | markActionCompleted =>
      let sc := stepCompletion context in
      set_stepCompletion context
        (mkStepCompletion true (step_inquiry sc) (step_discovery sc)
                          (step_misconception sc) (step_justification sc))
  | markInquiryCompleted =>
      let sc := stepCompletion context in
      set_stepCompletion context
        (mkStepCompletion (step_action sc) true (step_discovery sc)
                          (step_misconception sc) (step_justification sc))
  | markDiscoveryCompleted =>
      let sc := stepCompletion context in
      set_stepCompletion context
        (mkStepCompletion (step_action sc) (step_inquiry sc) true
                          (step_misconception sc) (step_justification sc))
  | markJustificationCompleted =>
      let sc := stepCompletion context in
      set_stepCompletion context
        (mkStepCompletion (step_action sc) (step_inquiry sc) (step_discovery sc)
                          (step_misconception sc) true)
  | setError =>
      set_error context
        match event with
        | ERROR e => Some e
        | _ => None
        end
  | clearError => set_error context None
  | resetToInitial =>
      (* initialContext has no completedAt key, so the merge keeps that field *)
      set_completedAt initialContext (completedAt context)
  | markCompleted => set_completedAt context (Some now)
  end.

(** *** the machine configuration *)

Record Transition := mkTransition {
  target : option State;
  actions : list Action;
  guard : option Guard
}.

(** [states.<state>.on.<event type>]: the candidate transitions, in order. *)
Definition on (state : State) (type : EventType) : list Transition :=
  match state, type with
  | action, T_COMPLETE_STEP =>
      [ mkTransition (Some inquiry) [markActionCompleted] (Some canProceedFromAction);
        mkTransition (Some action) [setError] None ]
  | action, T_PROCEED_TO_NEXT =>
      [ mkTransition (Some inquiry) [markActionCompleted] (Some canProceedFromAction) ]
  | action, T_HIGHLIGHT_ELEMENTS => [ mkTransition None [highlightElements] None ]
  | action, T_RESET_MODULE => [ mkTransition (Some action) [resetToInitial] None ]
  | action, T_ERROR => [ mkTransition None [setError] None ]

  | inquiry, T_SELECT_ANSWER => [ mkTransition None [selectAnswer] None ]
  | inquiry, T_COMPLETE_STEP =>
      [ mkTransition (Some discovery) [markInquiryCompleted] (Some canProceedFromInquiry);
        mkTransition None [setError] None ]
  | inquiry, T_PROCEED_TO_NEXT =>
      [ mkTransition (Some discovery) [markInquiryCompleted] (Some canProceedFromInquiry) ]
  | inquiry, T_PROCEED_TO_PREV => [ mkTransition (Some action) [] None ]
  | inquiry, T_RESET_MODULE => [ mkTransition (Some action) [resetToInitial] None ]

  | discovery, T_COLLECT_CHIP => [ mkTransition None [collectChip] (Some hasValidChip) ]
  | discovery, T_COMPLETE_STEP =>
      [ mkTransition (Some misconception) [markDiscoveryCompleted]
                     (Some canProceedFromDiscovery);
        mkTransition None [setError] None ]
  | discovery, T_PROCEED_TO_NEXT =>
      [ mkTransition (Some misconception) [markDiscoveryCompleted]
                     (Some canProceedFromDiscovery) ]
  | discovery, T_SKIP_DISCOVERY =>
      [ mkTransition (Some justification) [markDiscoveryCompleted] None ]
  | discovery, T_HIGHLIGHT_ELEMENTS => [ mkTransition None [highlightElements] None ]
  | discovery, T_PROCEED_TO_PREV => [ mkTransition (Some inquiry) [] None ]
  | discovery, T_RESET_MODULE => [ mkTransition (Some action) [resetToInitial] None ]

  | misconception, T_SELECT_ANSWER => [ mkTransition None [selectAnswer] None ]
  | misconception, T_PROCEED_TO_NEXT => [ mkTransition (Some justification) [] None ]
  | misconception, T_PROCEED_TO_PREV => [ mkTransition (Some discovery) [] None ]
  | misconception, T_RESET_MODULE => [ mkTransition (Some action) [resetToInitial] None ]

  | justification, T_COMPLETE_STEP =>
      [ mkTransition (Some completed) [markJustificationCompleted; markCompleted] None ]
  | justification, T_BACK_TO_DISCOVERY => [ mkTransition (Some discovery) [] None ]
  | justification, T_PROCEED_TO_PREV => [ mkTransition (Some misconception) [] None ]
  | justification, T_RESET_MODULE => [ mkTransition (Some action) [resetToInitial] None ]

  | completed, T_RESET_MODULE => [ mkTransition (Some action) [resetToInitial] None ]

  | _, _ => []
  end.

(** The [on] of the machine itself, consulted when the state node enables
    no transition. *)
Definition root_on (type : EventType) : list Transition :=
  match type with
  | T_SET_FOLD_ANGLE => [ mkTransition None [setFoldAngle] None ]
  | _ => []
  end.

Definition entry (state : State) : list Action :=
  match state with
  | action => [clearError]
  | _ => []
  end.

(** *** the interpreter step

    The first candidate whose guard holds (or that has none) is taken; its
    actions run in order; a transition to another state node then runs the
    entry actions of that node.  A transition without target, or whose target
    is the current node, does not leave the node.  An event that enables no
    transition is dropped. *)

Definition enabled (context : ActivityContext) (event : ActivityEvent)
    (t : Transition) : bool :=
  match guard t with
  | Some g => evalGuard g context event
  | None => true
  end.

Definition select (context : ActivityContext) (event : ActivityEvent)
    (candidates : list Transition) : option Transition :=
  find (enabled context event) candidates.

Definition run (now : Date) (context : ActivityContext) (event : ActivityEvent)
    (acts : list Action) : ActivityContext :=
  foldl (fun c a => exec now c event a) context acts.

Definition take (now : Date) (state : State) (context : ActivityContext)
    (event : ActivityEvent) (t : Transition) : State * ActivityContext :=
  let context' := run now context event (actions t) in
  match target t with
  | Some state' =>
      if decide (state' = state) then (state, context')
      else (state', run now context' event (entry state'))
  | None => (state, context')
  end.

Definition transition (now : Date) (snapshot : State * ActivityContext)
    (event : ActivityEvent) : State * ActivityContext :=
  let '(state, context) := snapshot in
  match select context event (on state (eventType event)) with
  | Some t => take now state context event t
  | None =>
      match select context event (root_on (eventType event)) with
      | Some t => take now state context event t
      | None => (state, context)
      end
  end.

(** The guard that decides whether [event] advances the machine in [state]:
    the guard of the first candidate transition. *)
Definition guardOf (state : State) (event : ActivityEvent) : option Guard :=
  match on state (eventType event) with
  | t :: _ => guard t
  | [] => None
  end.

(** The pedagogical sequence of the states. *)
Definition sequence : list State :=
  [action; inquiry; discovery; misconception; justification; completed].

(** [previous] is the state exactly one place before [state] in the
    sequence. *)
Definition oneStepBack (previous state : State) : Prop :=
  exists i : nat, sequence !! i = Some previous /\ sequence !! (S i) = Some state.

(** The initial context with the fold angle set to [a]. *)
Definition foldedTo (a : R) : ActivityContext := set_foldAngle initialContext a.

(** The machine as started by the interpreter: in [action], after its entry
    action. *)
Definition initialSnapshot : State * ActivityContext :=
  (action, set_error initialContext None).

(** Events dispatched one after the other, each with the clock value at
    which it is processed. *)
Definition dispatchAll (snapshot : State * ActivityContext)
    (events : list (Date * ActivityEvent)) : State * ActivityContext :=
  foldl (fun snapshot '(now, event) => transition now snapshot event) snapshot events.

(** The ids of the static chip definitions. *)
Definition validChipIds : list string :=
  map (fun c : ChipSystem.ChipDefinition => ChipSystem.id (c false false))
      ChipSystem.CHIP_DEFINITIONS.

End ActivityMachine.

(** ** Notions used to state the properties *)
Module Notions.
Import Geometry ChipSystem.
#[local] Open Scope string_scope.

(** The condition under which [collectChip] rejects a call: the chip does
    not exist, is already collected, is not available, or has a validation
    rule that fails on the arguments of the call. *)
Definition collect_rejected (this : ChipSystemManager) (chipId : string)
    (triangle : Triangle) (foldPoint : option Point) : Prop :=
  map_get (chips this) chipId = None \/
  exists chip, map_get (chips this) chipId = Some chip /\
    (collected chip = true \/
     isAvailable chip = false \/
     exists rule, validationRule chip = Some rule /\ rule triangle foldPoint = false).

(** A chip with its two mutable flags cleared: what the static definitions
    determine. *)
Definition erase (chip : Chip) : Chip :=
  with_isAvailable (with_collected chip false) false.

Definition erased (m : list (string * Chip)) : list (string * Chip) :=
  map (fun kc => (kc.1, erase kc.2)) m.

Definition flags (chip : Chip) : ChipState :=
  {| state_collected := collected chip; state_isAvailable := isAvailable chip |}.

(** The collected-set has no repeated id, and the chip map is the initial
    one up to the flags of its chips. *)
Definition wellFormed (this : ChipSystemManager) : Prop :=
  NoDup (collectedChips this) /\ erased (chips this) = chips new.

(** Every id listed as collected by an imported record is the id of a chip. *)
Definition knownIds (op : Operation) : Prop :=
  match op with
  | ImportState state =>
      forall chipId, chipId ∈ saved_collectedChips state -> chipId ∈ keys (chips new)
  | _ => True
  end.

(** The triangle of the isosceles activity (useIsoscelesActivity.ts). *)
Definition ISOSCELES_TRIANGLE : Triangle :=
  mkTriangle (mkPoint 2 0.5) (mkPoint 1 2.5) (mkPoint 3 2.5).

(** The registry after the three side chips have been collected on the
    isosceles triangle. *)
Definition threeSidesCollected : ChipSystemManager :=
  after [ UpdateAvailability ISOSCELES_TRIANGLE None;
          CollectChip "side-AB" ISOSCELES_TRIANGLE None;
          CollectChip "side-AC" ISOSCELES_TRIANGLE None;
          CollectChip "common-AD" ISOSCELES_TRIANGLE None ].

(** A saved record whose collected ids are not those of this registry. *)
Definition foreignState : SavedState :=
  {| saved_collectedChips :=
       ["chip-1"; "chip-2"; "chip-3"; "chip-4"; "chip-5"; "chip-6";
        "chip-7"; "chip-8"; "chip-9"; "chip-10"; "chip-11"];
     chipStates := [] |}.

(** The triangle with apex at the origin and both other vertices to its
    left, one above and one below the horizontal axis through the apex. *)
Definition reflexTriangle : Triangle :=
  mkTriangle (mkPoint 0 0) (mkPoint (-1) 1) (mkPoint (-1) (-1)).

(** The conditions returned by [checkSSS], by the first correspondence of
    [checkSAS], and by [checkRHA]. *)
Definition SSS_condition : CongruenceCondition :=
  {| Geometry.type := SSS; elements := ["AB"; "AC"; "BC"]; Geometry.isValid := true |}.

Definition SAS_condition_A : CongruenceCondition :=
  {| Geometry.type := SAS; elements := ["AB"; "AC"; "angle A"];
     Geometry.isValid := true |}.

Definition RHA_condition : CongruenceCondition :=
  {| Geometry.type := RHA;
     elements := ["right angle"; "hypotenuse"; "one acute angle"];
     Geometry.isValid := true |}.

(** The three sides of two triangles agree pairwise within tolerance. *)
Definition sidesAgree (t1 t2 : Triangle) (tolerance : R) : Prop :=
  let s1 := sides (measureTriangle t1) in
  let s2 := sides (measureTriangle t2) in
  (Rabs (AB s1 - AB s2) < tolerance)%R /\
  (Rabs (AC s1 - AC s2) < tolerance)%R /\
  (Rabs (BC s1 - BC s2) < tolerance)%R.

(** An operation other than [importState]. *)
Definition notImport (op : Operation) : Prop :=
  match op with
  | ImportState _ => False
  | _ => True
  end.

(** The collected flag of every chip and the collected-set say the same. *)
Definition flagsMatchSet (this : ChipSystemManager) : Prop :=
  forall chipId chip,
    map_get (chips this) chipId = Some chip ->
    (collected chip = true <-> chipId ∈ collectedChips this).

End Notions.

(** ** Notions used to state the properties of the activity machine *)
Module MachineNotions.
Import ActivityMachine.

(** The steps that lie before [state] on the way through the activity are
    marked completed; the misconception step has no marking action. *)
Definition stepsMarked (state : State) (sc : StepCompletion) : Prop :=
  match state with
  | action => True
  | inquiry => step_action sc = true
  | discovery => step_action sc = true /\ step_inquiry sc = true
  | misconception | justification =>
      step_action sc = true /\ step_inquiry sc = true /\ step_discovery sc = true
  | completed =>
      step_action sc = true /\ step_inquiry sc = true /\ step_discovery sc = true /\
      step_justification sc = true
  end.

(** The collected chip ids are distinct ids of static chip definitions. *)
Definition chipIdsWellFormed (context : ActivityContext) : Prop :=
  NoDup (collectedChips context) /\
  forall chipId, chipId ∈ collectedChips context -> chipId ∈ validChipIds.

End MachineNotions.

(* ===================================================================== *)
(** * Part II: properties                                                 *)
(* ===================================================================== *)

Section TolerantEquality.
Import Geometry.
#[local] Open Scope R_scope.

Lemma isEqual_true (a b tol : R) : isEqual a b tol = true <-> Rabs (a - b) < tol.
Proof. unfold isEqual. apply bool_decide_eq_true. Qed.

Lemma isEqual_false (a b tol : R) : isEqual a b tol = false <-> ~ Rabs (a - b) < tol.
Proof. unfold isEqual. apply bool_decide_eq_false. Qed.

Lemma isAngleEqual_isEqual (a b tol : R) : isAngleEqual a b tol = isEqual a b tol.
Proof. reflexivity. Qed.

Lemma isEqual_sym (a b tol : R) : isEqual a b tol = isEqual b a tol.
Proof. unfold isEqual. now rewrite Rabs_minus_sym. Qed.

Lemma Rabs_minus_self (v : R) : Rabs (v - v) = 0.
Proof. replace (v - v) with 0 by lra. apply Rabs_R0. Qed.

Lemma isEqual_refl_iff (v tol : R) : isEqual v v tol = true <-> 0 < tol.
Proof.
  rewrite isEqual_true.
  replace (v - v) with 0 by lra. now rewrite Rabs_R0.
Qed.




End TolerantEquality.

Section FoldFacts.
Import Geometry Fold Notions.
#[local] Open Scope R_scope.

(** C10. For every triangle and every fold angle the result of
    [foldTriangleAlongBisector] is flagged valid, and its overlap area is 0
    whenever the fold angle is at most 90 degrees. *)
Theorem foldTriangleAlongBisector_valid_no_overlap (t : Triangle) (foldAngle : R) :
  isValid (foldTriangleAlongBisector t foldAngle) = true /\
  (foldAngle <= 90 -> overlapArea (foldTriangleAlongBisector t foldAngle) = 0).
Proof.
  split; [reflexivity|].
  intros Hle. unfold foldTriangleAlongBisector; simpl.
  destruct (decide (foldAngle > 90)) as [Hgt|_]; [lra|reflexivity].
Qed.

Lemma foldTriangleAlongBisector_valid_no_overlap_witness :
  45 <= 90 /\
  isValid (foldTriangleAlongBisector ISOSCELES_TRIANGLE 45) = true /\
  overlapArea (foldTriangleAlongBisector ISOSCELES_TRIANGLE 45) = 0.
Proof.
  split; [lra|].
  destruct (foldTriangleAlongBisector_valid_no_overlap ISOSCELES_TRIANGLE 45)
    as [Hvalid Harea].
  split; [exact Hvalid|apply Harea; lra].
Defined.

End FoldFacts.

Section CongruenceFacts.
Import Geometry Congruence.
#[local] Open Scope R_scope.

Lemma checkRHS_cases (t1 t2 : Triangle) (tol : R) :
  checkRHS t1 t2 tol = Some RHS_condition \/ checkRHS t1 t2 tol = None.
Proof.
  unfold checkRHS.
  repeat match goal with |- context [if ?b then _ else _] => destruct b end; auto.
Qed.

(** [checkRHS] does answer with the RHS condition: on the sample pair of
    right triangles, at the default tolerance. *)
Lemma sample_sides (dx : R) :
  sides (measureTriangle
           (mkTriangle (mkPoint (1 + dx) 1) (mkPoint (1 + dx) 2.5) (mkPoint (3 + dx) 1)))
  = mkSides 1.5 2 2.5.
Proof.
  unfold measureTriangle, distance; cbn [sides A B C x y].
  f_equal.
  - replace ((1 + dx - (1 + dx)) ^ 2 + (2.5 - 1) ^ 2) with (1.5 * 1.5) by lra.
    apply sqrt_square. lra.
  - replace ((3 + dx - (1 + dx)) ^ 2 + (1 - 1) ^ 2) with (2 * 2) by lra.
    apply sqrt_square. lra.
  - replace ((3 + dx - (1 + dx)) ^ 2 + (1 - 2.5) ^ 2) with (2.5 * 2.5) by lra.
    apply sqrt_square. lra.
Qed.

Lemma sample_angle_A (dx : R) :
  angleA (angles (measureTriangle
           (mkTriangle (mkPoint (1 + dx) 1) (mkPoint (1 + dx) 2.5) (mkPoint (3 + dx) 1))))
  = 90.
Proof.
  unfold measureTriangle, angle; cbn [angles angleA A B C x y].
  replace (1 + dx - (1 + dx)) with 0 by lra.
  replace (3 + dx - (1 + dx)) with 2 by lra.
  replace (1 - 1) with 0 by lra.
  unfold atan2.
  rewrite (decide_True (P := 0 < 2)) by lra.
  rewrite (decide_False (P := 0 < 0)) by lra.
  rewrite (decide_False (P := 0 < 0)) by lra.
  rewrite (decide_True (P := 0 < 2.5 - 1)) by lra.
  replace (0 / 2) with 0 by lra. rewrite atan_0.
  replace (0 - PI / 2) with ((- (1 / 2)) * PI) by lra.
  unfold toDegrees. replace (- (1 / 2) * PI * 180 / PI) with (- 90).
  - rewrite Rabs_left by lra. lra.
  - field. apply PI_neq0.
Qed.

Lemma max3_sample : max3 1.5 2 2.5 = 2.5.
Proof.
  unfold max3. rewrite (Rmax_right 1.5 2) by lra. apply Rmax_right. lra.
Qed.

Example checkRHS_createRightTrianglesPair :
  checkRHS (fst Samples.createRightTrianglesPair)
           (snd Samples.createRightTrianglesPair) default_tolerance
  = Some RHS_condition.
Proof.
  assert (E1 : fst Samples.createRightTrianglesPair =
               mkTriangle (mkPoint (1 + 0) 1) (mkPoint (1 + 0) 2.5) (mkPoint (3 + 0) 1)).
  { cbn. f_equal; f_equal; lra. }
  assert (E2 : snd Samples.createRightTrianglesPair =
               mkTriangle (mkPoint (1 + 4) 1) (mkPoint (1 + 4) 2.5) (mkPoint (3 + 4) 1)).
  { cbn. f_equal; f_equal; lra. }
  rewrite E1, E2. unfold checkRHS. cbv zeta.
  rewrite !sample_sides, !sample_angle_A. cbn [AB AC BC]. rewrite max3_sample.
  assert (Hsame : forall v, isEqual v v default_tolerance = true).
  { intros v. apply isEqual_refl_iff. unfold default_tolerance. lra. }
  change (isAngleEqual 90 90 default_tolerance)
    with (isEqual 90 90 default_tolerance).
  rewrite !Hsame. cbn [orb negb].
  rewrite !filter_cons, filter_nil.
  rewrite (decide_True (P := 1.5 <> 2.5)) by lra.
  rewrite (decide_True (P := 2 <> 2.5)) by lra.
  rewrite (decide_False (P := 2.5 <> 2.5)) by (intros H; now apply H).
  cbn [existsb]. now rewrite Hsame.
Qed.

End CongruenceFacts.

Section MeasurementFacts.
Import Geometry Notions.
#[local] Open Scope R_scope.

Lemma atan2_pos_x (y x : R) : 0 < x -> atan2 y x = atan (y / x).
Proof. intros H. unfold atan2. now rewrite decide_True. Qed.

Lemma atan2_neg_x_nonneg_y (y x : R) : x < 0 -> 0 <= y -> atan2 y x = atan (y / x) + PI.
Proof.
  intros Hx Hy. unfold atan2.
  rewrite decide_False by lra. now rewrite !decide_True.
Qed.

Lemma atan2_neg_x_neg_y (y x : R) : x < 0 -> y < 0 -> atan2 y x = atan (y / x) - PI.
Proof.
  intros Hx Hy. unfold atan2.
  rewrite decide_False by lra. rewrite decide_True by lra.
  now rewrite decide_False by lra.
Qed.

Lemma atan2_zero_x_pos_y (y : R) : 0 < y -> atan2 y 0 = PI / 2.
Proof.
  intros Hy. unfold atan2.
  rewrite !decide_False by lra. now rewrite decide_True.
Qed.

Lemma atan2_zero_x_neg_y (y : R) : y < 0 -> atan2 y 0 = - (PI / 2).
Proof.
  intros Hy. unfold atan2.
  rewrite !decide_False by lra. now rewrite decide_True.
Qed.

Lemma atan_m1 : atan (-1) = - (PI / 4).
Proof. replace (-1) with (- (1)) by lra. rewrite atan_opp. now rewrite atan_1. Qed.

Lemma toDegrees_PI_multiple (k : R) : toDegrees (k * PI) = k * 180.
Proof. unfold toDegrees. field. apply PI_neq0. Qed.

Lemma sqrt_2_gt_1 : 1 < sqrt 2.
Proof. rewrite <- sqrt_1 at 1. apply sqrt_lt_1_alt. lra. Qed.

Lemma reflexTriangle_angle_A :
  angle (A reflexTriangle) (B reflexTriangle) (C reflexTriangle) = (- (3 / 2)) * PI.
Proof.
  unfold angle, reflexTriangle; simpl.
  rewrite atan2_neg_x_neg_y by lra.
  rewrite atan2_neg_x_nonneg_y by lra.
  replace ((-1 - 0) / (-1 - 0)) with 1 by lra.
  replace ((1 - 0) / (-1 - 0)) with (-1) by lra.
  rewrite atan_1, atan_m1. lra.
Qed.

Lemma reflexTriangle_angle_B :
  angle (B reflexTriangle) (A reflexTriangle) (C reflexTriangle) = (- (1 / 4)) * PI.
Proof.
  unfold angle, reflexTriangle; simpl.
  replace (-1 - -1) with 0 by lra.
  rewrite atan2_zero_x_neg_y by lra.
  rewrite atan2_pos_x by lra.
  replace ((0 - 1) / (0 - -1)) with (-1) by lra.
  rewrite atan_m1. lra.
Qed.

Lemma reflexTriangle_angle_C :
  angle (C reflexTriangle) (A reflexTriangle) (B reflexTriangle) = (1 / 4) * PI.
Proof.
  unfold angle, reflexTriangle; simpl.
  replace (-1 - -1) with 0 by lra.
  rewrite atan2_zero_x_pos_y by lra.
  rewrite atan2_pos_x by lra.
  replace ((0 - -1) / (0 - -1)) with 1 by lra.
  rewrite atan_1. lra.
Qed.

Lemma reflexTriangle_valid : isValidTriangle reflexTriangle = true.
Proof.
  unfold isValidTriangle, measureTriangle, distance, reflexTriangle; simpl.
  replace ((-1 - 0) * ((-1 - 0) * 1) + (1 - 0) * ((1 - 0) * 1)) with 2 by lra.
  replace ((-1 - 0) * ((-1 - 0) * 1) + (-1 - 0) * ((-1 - 0) * 1)) with 2 by lra.
  replace ((-1 - -1) * ((-1 - -1) * 1) + (-1 - 1) * ((-1 - 1) * 1)) with (2 * 2) by lra.
  rewrite sqrt_square by lra.
  pose proof sqrt_2_gt_1.
  rewrite !andb_true_iff, !bool_decide_eq_true. lra.
Qed.

(** C2 (the code at the failing input). [reflexTriangle] satisfies
    [isValidTriangle], yet the three angles returned by [measureTriangle]
    are 270, 45 and 45 degrees: they sum to 360, not 180. *)
Theorem measureTriangle_reflexTriangle_angle_sum :
  isValidTriangle reflexTriangle = true /\
  angles (measureTriangle reflexTriangle) = mkAngles 270 45 45 /\
  (let a := angles (measureTriangle reflexTriangle) in
   angleA a + angleB a + angleC a = 360).
Proof.
  split; [apply reflexTriangle_valid|].
  assert (E : angles (measureTriangle reflexTriangle) = mkAngles 270 45 45).
  { unfold measureTriangle; cbn [angles].
    rewrite reflexTriangle_angle_A, reflexTriangle_angle_B, reflexTriangle_angle_C.
    rewrite !toDegrees_PI_multiple.
    f_equal.
    - rewrite Rabs_left by lra. lra.
    - rewrite Rabs_left by lra. lra.
    - rewrite Rabs_right by lra. lra. }
  split; [exact E|]. rewrite E. simpl. lra.
Qed.

End MeasurementFacts.

Section RightAngleDetection.
Import Geometry Congruence.
#[local] Open Scope R_scope.

Lemma atan_5_6_bounds : PI / 8 < atan (5 / 6) < PI / 4.
Proof.
  split.
  - pose proof Machin_2_3 as M.
    pose proof (atan_increasing (/ 3) (/ 2)) as H1.
    pose proof (atan_increasing (/ 2) (5 / 6)) as H2.
    lra.
  - rewrite <- atan_1. apply atan_increasing. lra.
Qed.

Lemma atan_m5_6 : atan (- (5 / 6)) = - atan (5 / 6).
Proof. apply atan_opp. Qed.

Lemma RhsActivity_t1_angles :
  let t1 := fst RhsActivity.createRightTrianglesPair in
  angle (A t1) (B t1) (C t1) = atan (5 / 6) - PI / 2 /\
  angle (B t1) (A t1) (C t1) = atan (5 / 6) /\
  angle (C t1) (A t1) (B t1) = (3 / 2) * PI.
Proof.
  cbv zeta. unfold angle; cbn [fst RhsActivity.createRightTrianglesPair A B C x y].
  split; [|split].
  - replace (2.6 - 2.6) with 0 by lra.
    rewrite atan2_zero_x_pos_y by lra.
    rewrite atan2_neg_x_nonneg_y by lra.
    replace ((2.5 - 1.0) / (0.8 - 2.6)) with (- (5 / 6)) by lra.
    rewrite atan_m5_6. lra.
  - rewrite !atan2_pos_x by lra.
    replace ((2.5 - 2.5) / (2.6 - 0.8)) with 0 by lra.
    replace ((1.0 - 2.5) / (2.6 - 0.8)) with (- (5 / 6)) by lra.
    rewrite atan_0, atan_m5_6. lra.
  - replace (2.6 - 2.6) with 0 by lra.
    rewrite atan2_zero_x_neg_y by lra.
    rewrite atan2_neg_x_nonneg_y by lra.
    replace ((2.5 - 2.5) / (0.8 - 2.6)) with 0 by lra.
    rewrite atan_0. lra.
Qed.

Lemma RhsActivity_t1_measured :
  let a := angles (measureTriangle (fst RhsActivity.createRightTrianglesPair)) in
  45 < angleA a < 67.5 /\ 22.5 < angleB a < 45 /\ angleC a = 270.
Proof.
  cbv zeta. destruct RhsActivity_t1_angles as (EA & EB & EC). cbv zeta in EA, EB, EC.
  destruct atan_5_6_bounds as [Hlo Hhi]. pose proof PI_RGT_0 as Hpi.
  unfold measureTriangle; cbn [angles angleA angleB angleC].
  rewrite EA, EB, EC.
  assert (Hdeg : forall r, toDegrees r = r / PI * 180).
  { intros r. unfold toDegrees. field. apply PI_neq0. }
  rewrite !Hdeg.
  assert (Hq : PI / 8 / PI < atan (5 / 6) / PI < PI / 4 / PI).
  { split; apply Rmult_lt_compat_r; try lra; now apply Rinv_0_lt_compat. }
  replace (PI / 8 / PI) with (1 / 8) in Hq by (field; lra).
  replace (PI / 4 / PI) with (1 / 4) in Hq by (field; lra).
  replace ((atan (5 / 6) - PI / 2) / PI) with (atan (5 / 6) / PI - 1 / 2)
    by (field; lra).
  replace (3 / 2 * PI / PI) with (3 / 2) by (field; lra).
  split; [|split].
  - rewrite Rabs_left by lra. lra.
  - rewrite Rabs_right by lra. lra.
  - rewrite Rabs_right by lra. lra.
Qed.

Lemma RhsActivity_t2_angle_B :
  angleB (angles (measureTriangle (snd RhsActivity.createRightTrianglesPair))) = 90.
Proof.
  unfold measureTriangle, angle;
    cbn [snd RhsActivity.createRightTrianglesPair angles angleB A B C x y].
  replace (0.8 - 0.8) with 0 by lra.
  rewrite atan2_zero_x_neg_y by lra.
  rewrite atan2_pos_x by lra.
  replace ((2.5 - 2.5) / (2.6 - 0.8)) with 0 by lra. rewrite atan_0.
  replace (0 - - (PI / 2)) with ((1 / 2) * PI) by lra.
  rewrite toDegrees_PI_multiple. rewrite Rabs_right by lra. lra.
Qed.

Lemma distance_sqr (p q : Point) :
  distance p q ^ 2 = (x q - x p) ^ 2 + (y q - y p) ^ 2.
Proof.
  unfold distance. rewrite <- Rsqr_pow2. apply Rsqr_sqrt.
  pose proof (pow2_ge_0 (x q - x p)). pose proof (pow2_ge_0 (y q - y p)). lra.
Qed.

(** C7 (the code at the failing input).  The two triangles that the RHS
    activity builds are right triangles, [t1] with its right angle at C and
    [t2] at B, with the same hypotenuse and the same two legs.  The angle of
    [t1] at C is measured as 270 degrees, so [checkRHS] finds no right angle
    on [t1] and answers null for the pair, and the validation of the
    activity is false whatever chips are collected. *)
Theorem checkRHS_rejects_RhsActivity_pair :
  let t1 := fst RhsActivity.createRightTrianglesPair in
  let t2 := snd RhsActivity.createRightTrianglesPair in
  distance (A t1) (C t1) ^ 2 + distance (B t1) (C t1) ^ 2 = distance (A t1) (B t1) ^ 2 /\
  distance (A t2) (B t2) ^ 2 + distance (B t2) (C t2) ^ 2 = distance (A t2) (C t2) ^ 2 /\
  distance (A t1) (B t1) = distance (A t2) (C t2) /\
  distance (A t1) (C t1) = distance (A t2) (B t2) /\
  distance (B t1) (C t1) = distance (B t2) (C t2) /\
  angleC (angles (measureTriangle t1)) = 270 /\
  angleB (angles (measureTriangle t2)) = 90 /\
  checkRHS t1 t2 default_tolerance = None /\
  (forall allChipsCollected, RhsActivity.rhsValidated allChipsCollected = false).
Proof.
  cbv zeta.
  destruct RhsActivity_t1_measured as (HA & HB & HC). cbv zeta in HA, HB, HC.
  assert (Hnone : checkRHS (fst RhsActivity.createRightTrianglesPair)
                           (snd RhsActivity.createRightTrianglesPair)
                           default_tolerance = None).
  { unfold checkRHS. cbv zeta.
    assert (Hno : forall a, Rabs (a - 90) >= default_tolerance ->
                            isAngleEqual a 90 default_tolerance = false).
    { intros a Ha. apply bool_decide_eq_false. lra. }
    rewrite (Hno (angleA _)), (Hno (angleB _)), (Hno (angleC _)); [reflexivity|..];
      unfold default_tolerance.
    - rewrite HC. rewrite Rabs_right; lra.
    - rewrite Rabs_left; lra.
    - rewrite Rabs_left; lra. }
  repeat split.
  - rewrite !distance_sqr. cbn. lra.
  - rewrite !distance_sqr. cbn. lra.
  - unfold distance. cbn. f_equal. lra.
  - unfold distance. cbn. f_equal. lra.
  - exact HC.
  - apply RhsActivity_t2_angle_B.
  - exact Hnone.
  - intros b. unfold RhsActivity.rhsValidated.
    change RhsActivity.createRightTrianglesPair
      with (fst RhsActivity.createRightTrianglesPair,
            snd RhsActivity.createRightTrianglesPair).
    cbv beta iota. rewrite Hnone. destruct b; cbn [negb]; [|reflexivity].
    apply bool_decide_eq_false. intros [c Hc]. discriminate.
Qed.

End RightAngleDetection.

Section ChipRegistryFacts.
Import Geometry ChipSystem Notions.

Lemma map_get_set_eq {V : Type} (m : list (string * V)) (k : string) (v : V) :
  map_get (map_set m k v) k = Some v.
Proof.
  induction m as [|[k' v'] m IH]; simpl.
  - now rewrite decide_True.
  - destruct (decide (k' = k)) as [->|Hne]; simpl.
    + now rewrite decide_True.
    + now rewrite decide_False.
Qed.

Lemma set_add_elem (s : list string) (k : string) : k ∈ set_add s k.
Proof.
  unfold set_add. destruct (decide (k ∈ s)); [assumption|].
  apply elem_of_app. right. now apply list_elem_of_singleton.
Qed.

Lemma collectChip_false_iff this chipId triangle foldPoint :
  fst (collectChip this chipId triangle foldPoint) = false
  <-> collect_rejected this chipId triangle foldPoint.
Proof.
  unfold collectChip, collect_rejected.
  destruct (map_get (chips this) chipId) as [chip|]; [|simpl; tauto].
  destruct (collected chip) eqn:Ec; simpl.
  { split; [intros _|reflexivity]. right. exists chip. auto. }
  destruct (isAvailable chip) eqn:Ea; simpl.
  2:{ split; [intros _|reflexivity]. right. exists chip. auto. }
  destruct (validationRule chip) as [rule|] eqn:Er.
  - destruct (rule triangle foldPoint) eqn:Ev; simpl.
    + split; [discriminate|].
      intros [H|(c & [= <-] & [H|[H|(r & Hr & H)]])]; congruence.
    + split; [intros _|reflexivity]. right. exists chip.
      split; [reflexivity|]. right. right. now exists rule.
  - simpl. split; [discriminate|].
    intros [H|(c & [= <-] & [H|[H|(r & H & _)]])]; congruence.
Qed.

Lemma collectChip_true this chipId triangle foldPoint :
  fst (collectChip this chipId triangle foldPoint) = true ->
  exists chip,
    map_get (chips this) chipId = Some chip /\
    snd (collectChip this chipId triangle foldPoint) =
      {| chips := map_set (chips this) chipId (with_collected chip true);
         collectedChips := set_add (collectedChips this) chipId |}.
Proof.
  unfold collectChip.
  destruct (map_get (chips this) chipId) as [chip|]; [|discriminate].
  destruct (collected chip || negb (isAvailable chip)); [discriminate|].
  destruct (match validationRule chip with Some _ => _ | None => _ end);
    [discriminate|].
  intros _. now exists chip.
Qed.

Lemma collectChip_false_unchanged this chipId triangle foldPoint :
  fst (collectChip this chipId triangle foldPoint) = false ->
  snd (collectChip this chipId triangle foldPoint) = this.
Proof.
  unfold collectChip.
  destruct (map_get (chips this) chipId) as [chip|]; [|reflexivity].
  destruct (collected chip || negb (isAvailable chip)); [reflexivity|].
  destruct (match validationRule chip with Some _ => _ | None => _ end);
    [reflexivity|discriminate].
Qed.

(** C4. [collectChip] returns a Boolean together with the next registry
    state (it has no failing path).  The Boolean is false exactly when the
    chip does not exist, is already collected, is not available, or has a
    validation rule that fails on the arguments of this call, and then the
    state is unchanged; otherwise it is true, the chip stored under the id
    is the former chip marked collected and the id is in the collected-set.
    After a successful call, every further call with the same id returns
    false. *)
Theorem collectChip_spec (this : ChipSystemManager) (chipId : string)
    (triangle : Triangle) (foldPoint : option Point) :
  let result := collectChip this chipId triangle foldPoint in
  (fst result = false <-> collect_rejected this chipId triangle foldPoint) /\
  (fst result = false -> snd result = this) /\
  (fst result = true ->
     (exists chip,
        map_get (chips this) chipId = Some chip /\
        map_get (chips (snd result)) chipId = Some (with_collected chip true)) /\
     chipId ∈ collectedChips (snd result) /\
     forall triangle' foldPoint',
       fst (collectChip (snd result) chipId triangle' foldPoint') = false).
Proof.
  intros result. subst result.
  split; [apply collectChip_false_iff|].
  split; [apply collectChip_false_unchanged|].
  intros Ht. destruct (collectChip_true _ _ _ _ Ht) as (chip & Hget & ->).
  simpl. split; [|split].
  - exists chip. split; [exact Hget|]. apply map_get_set_eq.
  - apply set_add_elem.
  - intros triangle' foldPoint'. unfold collectChip; simpl.
    now rewrite map_get_set_eq.
Qed.

End ChipRegistryFacts.

Section SASCompletionFacts.
Import Geometry ChipSystem Notions.
#[local] Open Scope string_scope.

Lemma includes_true (l : list string) (s : string) : includes l s = true <-> s ∈ l.
Proof. unfold includes. apply bool_decide_eq_true. Qed.

Lemma isSASChipSetComplete_iff (ids : list string) :
  isSASChipSetComplete ids = true <-> (forall r, r ∈ REQUIRED_SAS_CHIPS -> r ∈ ids).
Proof.
  unfold isSASChipSetComplete, REQUIRED_SAS_CHIPS.
  rewrite !andb_true_iff, !includes_true. split.
  - intros [[[H1 H2] [H3 H4]] H5] r Hr.
    rewrite !elem_of_cons, elem_of_nil in Hr.
    destruct Hr as [->|[->|[->|[->|[->|[]]]]]]; assumption.
  - intros H. repeat split; apply H; rewrite !elem_of_cons; tauto.
Qed.

Lemma SAS_PATTERNS_requiredChips :
  map requiredChips SAS_PATTERNS =
  [ ["side-AB"; "side-AC"; "common-AD"];
    ["side-AB"; "side-AC"; "common-AD"];
    ["side-AB"; "side-AC"; "common-AD"] ].
Proof. reflexivity. Qed.

Lemma checkSASCompletion_iff (this : ChipSystemManager) :
  checkSASCompletion this = true
  <-> (forall r, r ∈ ["side-AB"; "side-AC"; "common-AD"] -> r ∈ collectedChips this).
Proof.
  unfold checkSASCompletion.
  change (existsb _ SAS_PATTERNS) with
    (let all := forallb (fun chipId => includes (collectedChips this) chipId)
                        ["side-AB"; "side-AC"; "common-AD"] in
     all || (all || (all || false))).
  cbv zeta. rewrite !orb_false_r, !orb_diag.
  rewrite forallb_forall. setoid_rewrite <- list_elem_of_In.
  setoid_rewrite includes_true. reflexivity.
Qed.

(** C3 (as amended). [isSASChipSetComplete ids] is true exactly when [ids]
    contains the five required ids angle-BAD, angle-CAD, side-AB, side-AC and
    common-AD.  [checkSASCompletion] is true exactly when the collected-id
    set contains the required chips of one of the [SAS_PATTERNS], each of
    which is side-AB, side-AC, common-AD. *)
Theorem SAS_completion_predicates (ids : list string) (this : ChipSystemManager) :
  (isSASChipSetComplete ids = true
   <-> (forall r, r ∈ REQUIRED_SAS_CHIPS -> r ∈ ids)) /\
  (checkSASCompletion this = true
   <-> (exists pattern, pattern ∈ SAS_PATTERNS /\
          forall r, r ∈ requiredChips pattern -> r ∈ collectedChips this)) /\
  (checkSASCompletion this = true
   <-> (forall r, r ∈ ["side-AB"; "side-AC"; "common-AD"] -> r ∈ collectedChips this)).
Proof.
  split; [apply isSASChipSetComplete_iff|].
  split; [|apply checkSASCompletion_iff].
  rewrite checkSASCompletion_iff. split.
  - intros H. exists {| name := "Complete SAS";
                       requiredChips := ["side-AB"; "side-AC"; "common-AD"];
                       patternDescription := "두 등변과 공통변" |}.
    split; [|exact H]. unfold SAS_PATTERNS. rewrite !elem_of_cons. tauto.
  - intros (pattern & Hin & H).
    assert (E : requiredChips pattern = ["side-AB"; "side-AC"; "common-AD"]).
    { unfold SAS_PATTERNS in Hin. rewrite !elem_of_cons, elem_of_nil in Hin.
      destruct Hin as [->|[->|[->|[]]]]; reflexivity. }
    now rewrite <- E.
Qed.

End SASCompletionFacts.

Section RegistryInvariant.
Import Geometry ChipSystem Notions.

(** *** Insertion-ordered maps and sets *)

Lemma map_get_None {V : Type} (m : list (string * V)) (k : string) :
  map_get m k = None <-> k ∉ keys m.
Proof.
  unfold keys. induction m as [|[k' v] m IH]; simpl.
  - split; [intros _; apply not_elem_of_nil|reflexivity].
  - rewrite not_elem_of_cons. destruct (decide (k' = k)) as [->|Hne].
    + split; [discriminate|]. intros [H _]. congruence.
    + rewrite IH. split; [intros H; split; [congruence|exact H]|tauto].
Qed.

Lemma map_set_absent {V : Type} (m : list (string * V)) (k : string) (v : V) :
  k ∉ keys m -> map_set m k v = m ++ [(k, v)].
Proof.
  unfold keys. induction m as [|[k' v'] m IH]; simpl; [reflexivity|].
  rewrite not_elem_of_cons. intros [Hne Hnin].
  rewrite decide_False by congruence. now rewrite IH.
Qed.

Lemma map_set_app_absent {V : Type} (pre m : list (string * V)) (k : string) (v : V) :
  k ∉ keys pre -> map_set (pre ++ m) k v = pre ++ map_set m k v.
Proof.
  unfold keys. induction pre as [|[k' v'] pre IH]; simpl; [reflexivity|].
  rewrite not_elem_of_cons. intros [Hne Hnin].
  rewrite decide_False by congruence. now rewrite IH.
Qed.

Lemma map_forEach_set_map {V : Type} (f : V -> V) (m : list (string * V)) :
  NoDup (keys m) -> map_forEach_set f m = map (fun kv => (kv.1, f kv.2)) m.
Proof.
  unfold map_forEach_set.
  enough (G : forall rest pre, NoDup (keys (pre ++ rest)) ->
            foldl (fun acc '(k, v) => map_set acc k (f v)) (pre ++ rest) rest
            = pre ++ map (fun kv => (kv.1, f kv.2)) rest)
    by (intros H; apply (G m [] H)).
  unfold keys. induction rest as [|[k v] rest IH]; intros pre Hnd; simpl.
  - reflexivity.
  - rewrite map_app in Hnd. simpl in Hnd.
    apply NoDup_app in Hnd as (Hpre & Hdisj & Hrest).
    rewrite map_set_app_absent.
    2:{ intros Hin. apply (Hdisj _ Hin). apply elem_of_cons. now left. }
    simpl. rewrite decide_True by reflexivity.
    rewrite (cons_middle (k, f v) pre rest), app_assoc.
    rewrite IH.
    + now rewrite <- app_assoc.
    + rewrite <- app_assoc. simpl. rewrite map_app. simpl.
      apply NoDup_app. split; [exact Hpre|]. split; [exact Hdisj|exact Hrest].
Qed.

Lemma set_add_NoDup (s : list string) (k : string) : NoDup s -> NoDup (set_add s k).
Proof.
  intros H. unfold set_add. destruct (decide (k ∈ s)) as [Hin|Hnin]; [exact H|].
  apply NoDup_app. split; [exact H|]. split.
  - intros x Hx Hx'. apply list_elem_of_singleton in Hx'. congruence.
  - apply NoDup_singleton.
Qed.

Lemma foldl_set_add_NoDup (l acc : list string) :
  NoDup acc -> NoDup (foldl set_add acc l).
Proof.
  revert acc. induction l as [|k l IH]; intros acc H; simpl; [exact H|].
  apply IH. now apply set_add_NoDup.
Qed.

Lemma foldl_set_add_fresh (l acc : list string) :
  NoDup (acc ++ l) -> foldl set_add acc l = acc ++ l.
Proof.
  revert acc. induction l as [|k l IH]; intros acc H; simpl.
  - now rewrite app_nil_r.
  - assert (Hk : k ∉ acc).
    { apply NoDup_app in H as (_ & Hdisj & _). intros Hin.
      apply (Hdisj _ Hin). apply elem_of_cons. now left. }
    unfold set_add at 2. rewrite decide_False by exact Hk.
    rewrite IH; rewrite <- app_assoc; [reflexivity|exact H].
Qed.

Lemma foldl_set_add_subseteq (l acc : list string) (k : string) :
  k ∈ foldl set_add acc l -> k ∈ acc \/ k ∈ l.
Proof.
  revert acc. induction l as [|k' l IH]; intros acc H; simpl in H; [now left|].
  apply IH in H. destruct H as [H|H].
  - unfold set_add in H. destruct (decide (k' ∈ acc)); [now left|].
    apply elem_of_app in H as [H|H]; [now left|].
    apply list_elem_of_singleton in H. right. apply elem_of_cons. now left.
  - right. apply elem_of_cons. now right.
Qed.

End RegistryInvariant.

Section RegistryWellFormed.
Import Geometry ChipSystem Notions.

Lemma erase_with_collected (chip : Chip) (b : bool) :
  erase (with_collected chip b) = erase chip.
Proof. reflexivity. Qed.

Lemma erase_with_isAvailable (chip : Chip) (b : bool) :
  erase (with_isAvailable chip b) = erase chip.
Proof. reflexivity. Qed.

Lemma erase_restore (chip saved : Chip) :
  erase chip = erase saved ->
  with_isAvailable (with_collected chip (collected saved)) (isAvailable saved) = saved.
Proof.
  destruct chip, saved. unfold erase, with_isAvailable, with_collected; simpl.
  intros [= -> -> -> -> -> -> ->]. reflexivity.
Qed.

Lemma keys_erased (m : list (string * Chip)) : keys (erased m) = keys m.
Proof.
  unfold keys, erased. rewrite map_map. apply map_ext. now intros [k c].
Qed.

Lemma erased_map_set (m : list (string * Chip)) (k : string) (chip chip' : Chip) :
  map_get m k = Some chip -> erase chip' = erase chip ->
  erased (map_set m k chip') = erased m.
Proof.
  unfold erased. induction m as [|[k' c] m IH]; simpl; [discriminate|].
  destruct (decide (k' = k)) as [->|Hne]; simpl.
  - intros [= ->] ->. reflexivity.
  - intros Hget He. now rewrite IH.
Qed.

Lemma erased_map (f : Chip -> Chip) (m : list (string * Chip)) :
  (forall chip, erase (f chip) = erase chip) ->
  erased (map (fun kv => (kv.1, f kv.2)) m) = erased m.
Proof.
  intros Hf. unfold erased. rewrite map_map. apply map_ext.
  intros [k c]; simpl. now rewrite Hf.
Qed.

Lemma erased_forEach_set (f : Chip -> Chip) (m : list (string * Chip)) :
  NoDup (keys m) -> (forall chip, erase (f chip) = erase chip) ->
  erased (map_forEach_set f m) = erased m.
Proof.
  intros Hnd Hf. rewrite map_forEach_set_map by exact Hnd. now apply erased_map.
Qed.

Lemma keys_new_NoDup : NoDup (keys (chips new)).
Proof. apply (bool_decide_unpack _). reflexivity. Qed.

Lemma wellFormed_keys (this : ChipSystemManager) :
  wellFormed this -> keys (chips this) = keys (chips new).
Proof. intros [_ H]. now rewrite <- H, keys_erased. Qed.

Lemma wellFormed_keys_NoDup (this : ChipSystemManager) :
  wellFormed this -> NoDup (keys (chips this)).
Proof. intros H. rewrite (wellFormed_keys _ H). apply keys_new_NoDup. Qed.

Lemma wellFormed_new : wellFormed new.
Proof. split; [apply NoDup_nil_2|reflexivity]. Qed.

Lemma import_chips_erased (entries : list (string * ChipState)) (m : list (string * Chip)) :
  erased
    (foldl importEntry m entries)
  = erased m.
Proof.
  revert m. induction entries as [|[k st] entries IH]; intros m; simpl; [reflexivity|].
  rewrite IH. destruct (map_get m k) as [chip|] eqn:Hget; [|reflexivity].
  now apply (erased_map_set m k chip).
Qed.

Lemma wellFormed_updateAvailability this triangle foldPoint :
  wellFormed this -> wellFormed (updateAvailability this triangle foldPoint).
Proof.
  intros H. pose proof (wellFormed_keys_NoDup _ H) as Hnd.
  destruct H as [H1 H2]. split; [exact H1|].
  unfold updateAvailability; cbn [chips collectedChips].
  rewrite erased_forEach_set; [exact H2|exact Hnd|].
  intros chip. now destruct (validationRule chip).
Qed.

Lemma wellFormed_reset this : wellFormed this -> wellFormed (reset this).
Proof.
  intros H. pose proof (wellFormed_keys_NoDup _ H) as Hnd.
  destruct H as [H1 H2]. split; [apply NoDup_nil_2|].
  unfold reset; cbn [chips collectedChips].
  now rewrite erased_forEach_set.
Qed.

Lemma wellFormed_collectChip this chipId triangle foldPoint :
  wellFormed this -> wellFormed (snd (collectChip this chipId triangle foldPoint)).
Proof.
  intros H. destruct (fst (collectChip this chipId triangle foldPoint)) eqn:E.
  - destruct (collectChip_true _ _ _ _ E) as (chip & Hget & ->).
    destruct H as [H1 H2]. split; simpl.
    + now apply set_add_NoDup.
    + now rewrite (erased_map_set _ _ chip).
  - now rewrite collectChip_false_unchanged.
Qed.

Lemma wellFormed_uncollectChip this chipId :
  wellFormed this -> wellFormed (snd (uncollectChip this chipId)).
Proof.
  intros [H1 H2]. unfold uncollectChip.
  destruct (map_get (chips this) chipId) as [chip|] eqn:Hget; [|now split].
  destruct (negb (collected chip)); [now split|].
  split; simpl.
  - now apply NoDup_filter.
  - now rewrite (erased_map_set _ _ chip).
Qed.

Lemma wellFormed_importState this state :
  wellFormed this -> wellFormed (importState this state).
Proof.
  intros [H1 H2]. split; simpl.
  - apply foldl_set_add_NoDup, NoDup_nil_2.
  - now rewrite import_chips_erased.
Qed.

Lemma wellFormed_perform this op : wellFormed this -> wellFormed (perform this op).
Proof.
  destruct op; simpl.
  - apply wellFormed_updateAvailability.
  - apply wellFormed_collectChip.
  - apply wellFormed_uncollectChip.
  - apply wellFormed_reset.
  - apply wellFormed_importState.
Qed.

Lemma wellFormed_foldl ops this : wellFormed this -> wellFormed (foldl perform this ops).
Proof.
  revert this. induction ops as [|op ops IH]; intros this H; simpl; [exact H|].
  now apply IH, wellFormed_perform.
Qed.

Lemma wellFormed_after ops : wellFormed (after ops).
Proof. apply wellFormed_foldl, wellFormed_new. Qed.

End RegistryWellFormed.

Section RegistryRoundTrip.
Import Geometry ChipSystem Notions.

Lemma export_chipStates_fold (m : list (string * Chip)) (acc : list (string * ChipState)) :
  NoDup (keys acc ++ keys m) ->
  foldl exportEntry acc m
  = acc ++ map (fun kc => (kc.1, flags kc.2)) m.
Proof.
  revert acc. induction m as [|[k c] m IH]; intros acc Hnd; simpl.
  - now rewrite app_nil_r.
  - assert (Hk : k ∉ keys acc).
    { apply NoDup_app in Hnd as (_ & Hdisj & _). intros Hin.
      apply (Hdisj _ Hin). apply elem_of_cons. now left. }
    rewrite map_set_absent by exact Hk. rewrite IH.
    + now rewrite <- app_assoc.
    + unfold keys in *. rewrite map_app, <- app_assoc. exact Hnd.
Qed.

Lemma exportState_eq (this : ChipSystemManager) :
  NoDup (keys (chips this)) ->
  exportState this =
  {| saved_collectedChips := collectedChips this;
     chipStates := map (fun kc => (kc.1, flags kc.2)) (chips this) |}.
Proof.
  intros Hnd. unfold exportState. f_equal.
  now rewrite export_chipStates_fold.
Qed.

Lemma import_fold_head (entries : list (string * ChipState))
    (k : string) (chip : Chip) (m : list (string * Chip)) :
  k ∉ keys entries ->
  foldl importEntry ((k, chip) :: m) entries
  = (k, chip) ::
    foldl importEntry m entries.
Proof.
  revert m. unfold keys.
  induction entries as [|[k' st] entries IH]; intros m Hk; simpl; [reflexivity|].
  simpl in Hk. apply not_elem_of_cons in Hk as [Hne Hk].
  rewrite decide_False by congruence.
  destruct (map_get m k') as [c|]; [|now apply IH].
  simpl. rewrite decide_False by congruence. now apply IH.
Qed.

Lemma import_fold_restore (saved m : list (string * Chip)) :
  erased m = erased saved -> NoDup (keys saved) ->
  foldl importEntry m (map (fun kc => (kc.1, flags kc.2)) saved)
  = saved.
Proof.
  revert m. induction saved as [|[k c1] saved IH]; intros m He Hnd.
  - destruct m; [reflexivity|discriminate].
  - destruct m as [|[k' c] m]; [discriminate|].
    pose proof (f_equal (fun l => fst <$> head l) He) as Hk'.
    pose proof (f_equal (fun l => snd <$> head l) He) as Hc.
    pose proof (f_equal tail He) as Hm.
    simpl in Hk', Hc, Hm. apply (inj Some) in Hk', Hc. subst k'.
    simpl in Hnd. apply NoDup_cons in Hnd as [Hk Hnd].
    simpl. rewrite !decide_True by reflexivity.
    rewrite (erase_restore c c1 Hc).
    rewrite import_fold_head.
    + f_equal. now apply IH.
    + unfold keys. rewrite map_map. exact Hk.
Qed.

Lemma importState_exportState (saved other : ChipSystemManager) :
  wellFormed saved -> wellFormed other ->
  importState other (exportState saved) = saved.
Proof.
  intros Hs Ho. pose proof (wellFormed_keys_NoDup _ Hs) as Hnd.
  rewrite exportState_eq by exact Hnd.
  destruct Hs as [Hs1 Hs2], Ho as [_ Ho2].
  destruct saved as [m cc]. unfold importState; simpl in *. f_equal.
  - apply import_fold_restore; [congruence|exact Hnd].
  - now apply (foldl_set_add_fresh cc []).
Qed.

(** C8. For every manager state [this] reached by a sequence of operations,
    importing the record it exports gives back [this] itself: the same
    collected-id set and, for every chip, the same collected and isAvailable
    flags; exporting again produces the same record.  The restored state is
    [this] also when the record is imported into a manager in another
    reachable state. *)
Theorem exportState_importState_roundtrip (ops ops' : list Operation) :
  let this := after ops in
  let other := after ops' in
  importState this (exportState this) = this /\
  exportState (importState this (exportState this)) = exportState this /\
  importState other (exportState this) = this.
Proof.
  intros this other.
  pose proof (wellFormed_after ops) as H.
  pose proof (wellFormed_after ops') as H'.
  fold this in H. fold other in H'.
  assert (E : importState this (exportState this) = this)
    by now apply importState_exportState.
  split; [exact E|]. split; [now rewrite E|].
  now apply importState_exportState.
Qed.

End RegistryRoundTrip.

Section RegistryProgress.
Import Geometry ChipSystem Notions.
#[local] Open Scope string_scope.

Lemma ISOSCELES_TRIANGLE_isIsosceles :
  isIsosceles ISOSCELES_TRIANGLE default_tolerance = true.
Proof.
  unfold isIsosceles, measureTriangle, distance, ISOSCELES_TRIANGLE, default_tolerance.
  simpl. apply bool_decide_eq_true.
  replace ((1 - 2) * ((1 - 2) * 1))%R with ((3 - 2) * ((3 - 2) * 1))%R by lra.
  rewrite Rabs_minus_self. lra.
Qed.

Lemma threeSidesCollected_ids :
  collectedChips threeSidesCollected = ["side-AB"; "side-AC"; "common-AD"].
Proof.
  pose proof ISOSCELES_TRIANGLE_isIsosceles as H.
  unfold threeSidesCollected, after.
  cbv -[isIsosceles default_tolerance ISOSCELES_TRIANGLE].
  rewrite !H. reflexivity.
Qed.

(** C3 (as stated) fails for [checkSASCompletion]: once side-AB, side-AC
    and common-AD have been collected it answers true, although the
    collected-id set is not a superset of the five required ids. *)
Lemma checkSASCompletion_true_without_angles :
  checkSASCompletion threeSidesCollected = true /\
  ~ (forall r, r ∈ REQUIRED_SAS_CHIPS -> r ∈ collectedChips threeSidesCollected).
Proof.
  split.
  - apply checkSASCompletion_iff. rewrite threeSidesCollected_ids. tauto.
  - intros H. specialize (H "angle-BAD").
    rewrite threeSidesCollected_ids in H. unfold REQUIRED_SAS_CHIPS in H.
    rewrite !elem_of_cons, elem_of_nil in H.
    destruct H as [H|[H|[H|[]]]]; [tauto|discriminate..].
Qed.

Lemma collectChip_spec_witness :
  let this := updateAvailability new ISOSCELES_TRIANGLE None in
  let result := collectChip this "common-AD" ISOSCELES_TRIANGLE None in
  fst result = true /\
  "common-AD" ∈ collectedChips (snd result) /\
  fst (collectChip (snd result) "common-AD" ISOSCELES_TRIANGLE None) = false.
Proof.
  intros this result.
  assert (H : fst result = true) by reflexivity.
  split; [exact H|].
  destruct (collectChip_spec this "common-AD" ISOSCELES_TRIANGLE None)
    as (_ & _ & Hs).
  destruct (Hs H) as (_ & Hin & Hagain).
  split; [exact Hin|apply Hagain].
Defined.

(** *** Progress *)

Lemma map_get_Some_keys {V : Type} (m : list (string * V)) (k : string) (v : V) :
  map_get m k = Some v -> k ∈ keys m.
Proof.
  intros H. destruct (decide (k ∈ keys m)) as [Hin|Hnin]; [exact Hin|].
  apply map_get_None in Hnin. congruence.
Qed.

Lemma collected_known_perform this op :
  wellFormed this -> knownIds op ->
  (forall k, k ∈ collectedChips this -> k ∈ keys (chips new)) ->
  forall k, k ∈ collectedChips (perform this op) -> k ∈ keys (chips new).
Proof.
  intros Hwf Hop Hsub k.
  destruct op as [t fp|chipId t fp|chipId| |state]; cbn [perform knownIds] in *.
  - apply Hsub.
  - destruct (fst (collectChip this chipId t fp)) eqn:E.
    + destruct (collectChip_true _ _ _ _ E) as (chip & Hget & ->).
      cbn [snd collectedChips]. unfold set_add. destruct (decide (chipId ∈ collectedChips this)); [apply Hsub|].
      rewrite elem_of_app, list_elem_of_singleton. intros [H| ->]; [now apply Hsub|].
      rewrite <- (wellFormed_keys _ Hwf). now apply (map_get_Some_keys _ _ chip).
    + rewrite collectChip_false_unchanged by exact E. apply Hsub.
  - unfold uncollectChip.
    destruct (map_get (chips this) chipId) as [chip|]; [|apply Hsub].
    destruct (negb (collected chip)); [apply Hsub|]. cbn [snd collectedChips].
    unfold set_delete. rewrite list_elem_of_filter. intros [_ H]. now apply Hsub.
  - cbn [reset collectedChips]. intros H. now apply elem_of_nil in H.
  - cbn [importState collectedChips]. intros H.
    apply foldl_set_add_subseteq in H as [H|H].
    + now apply elem_of_nil in H.
    + now apply Hop.
Qed.

Lemma collected_known_foldl ops this :
  wellFormed this -> Forall knownIds ops ->
  (forall k, k ∈ collectedChips this -> k ∈ keys (chips new)) ->
  forall k, k ∈ collectedChips (foldl perform this ops) -> k ∈ keys (chips new).
Proof.
  revert this. induction ops as [|op ops IH]; intros this Hwf Hops Hsub; simpl.
  - exact Hsub.
  - apply Forall_cons in Hops as [Hop Hops]. apply IH.
    + now apply wellFormed_perform.
    + exact Hops.
    + now apply collected_known_perform.
Qed.

(** As long as every imported record lists only ids of chips of the
    registry, the collected count never exceeds the total. *)
Lemma getProgress_collected_le_total (ops : list Operation) :
  Forall knownIds ops ->
  progress_collected (getProgress (after ops))
  <= progress_total (getProgress (after ops)).
Proof.
  intros Hops. unfold getProgress; cbn [progress_collected progress_total].
  pose proof (wellFormed_after ops) as Hwf.
  assert (Hsub : forall k, k ∈ collectedChips (after ops) -> k ∈ keys (chips new)).
  { apply collected_known_foldl; [apply wellFormed_new|exact Hops|].
    intros k H. now apply elem_of_nil in H. }
  replace (length (chips (after ops))) with (length (keys (chips new))).
  - apply submseteq_length, NoDup_submseteq; [apply Hwf|exact Hsub].
  - rewrite <- (wellFormed_keys _ Hwf). unfold keys. apply length_map.
Qed.

(** C6 (the code at the failing input). Importing into a fresh manager a
    record that lists eleven collected ids makes [getProgress] report 11
    collected chips out of a total of 10. *)
Theorem getProgress_after_foreign_import :
  let progress := getProgress (after [ImportState foreignState]) in
  progress_collected progress = 11 /\
  progress_total progress = 10 /\
  ~ progress_collected progress <= progress_total progress.
Proof.
  assert (E1 : progress_collected (getProgress (after [ImportState foreignState])) = 11)
    by reflexivity.
  assert (E2 : progress_total (getProgress (after [ImportState foreignState])) = 10)
    by reflexivity.
  cbv zeta. rewrite E1, E2. repeat split. lia.
Qed.

End RegistryProgress.

Section ActivityMachineFacts.
Import ActivityMachine.
#[local] Open Scope string_scope.

Lemma set_error_same (context : ActivityContext) :
  set_error context (error context) = context.
Proof. now destruct context. Qed.

Lemma set_error_set_error (context : ActivityContext) (e e' : option string) :
  set_error (set_error context e) e' = set_error context e'.
Proof. reflexivity. Qed.

(** The states and events in which advancing is guarded. *)
Lemma guardOf_advance (state : State) (event : ActivityEvent) (g : Guard) :
  event = COMPLETE_STEP \/ event = PROCEED_TO_NEXT ->
  guardOf state event = Some g ->
  (state = action /\ g = canProceedFromAction) \/
  (state = inquiry /\ g = canProceedFromInquiry) \/
  (state = discovery /\ g = canProceedFromDiscovery).
Proof.
  intros [-> | ->]; destruct state; unfold guardOf; simpl;
    intros H; try discriminate H; injection H as H; subst g; tauto.
Qed.

(** C1 (as amended). In every state, a COMPLETE_STEP or PROCEED_TO_NEXT whose
    guard is false yields a next snapshot (the step function has no failing
    path) in the same state, with every context field other than [error]
    unchanged; after a rejected PROCEED_TO_NEXT the whole context, [error]
    included, is unchanged. *)
Theorem rejected_advance_stays (now : Date) (state : State)
    (context : ActivityContext) (event : ActivityEvent) (g : Guard) :
  event = COMPLETE_STEP \/ event = PROCEED_TO_NEXT ->
  guardOf state event = Some g ->
  evalGuard g context event = false ->
  fst (transition now (state, context) event) = state /\
  set_error (snd (transition now (state, context) event)) (error context) = context /\
  (event = PROCEED_TO_NEXT -> snd (transition now (state, context) event) = context).
Proof.
  intros Hev Hg Hfalse.
  destruct (guardOf_advance _ _ _ Hev Hg) as [[-> ->]|[[-> ->]|[-> ->]]];
    destruct Hev as [-> | ->];
    unfold transition, select, enabled, take; cbn [on eventType find guard];
    rewrite Hfalse; cbn [find root_on target actions guard run foldl exec fst snd];
    rewrite ?decide_True by reflexivity; cbn [fst snd];
    rewrite ?set_error_set_error, ?set_error_same;
    (split; [reflexivity|split; [reflexivity|]]);
    intros H; try discriminate H; reflexivity.
Qed.

Lemma foldedTo_45_guard :
  evalGuard canProceedFromAction (foldedTo 45) COMPLETE_STEP = false.
Proof. apply bool_decide_eq_false. unfold foldedTo; simpl. lra. Qed.

Lemma foldedTo_45_reached :
  transition 0%Z (action, initialContext) (SET_FOLD_ANGLE 45) = (action, foldedTo 45).
Proof.
  unfold transition, select, enabled, take, foldedTo, set_foldAngle; cbn.
  rewrite Rmin_right by lra. rewrite Rmax_right by lra. reflexivity.
Qed.

Lemma rejected_advance_stays_witness :
  fst (transition 0%Z (action, foldedTo 45) COMPLETE_STEP) = action /\
  set_error (snd (transition 0%Z (action, foldedTo 45) COMPLETE_STEP))
            (error (foldedTo 45)) = foldedTo 45.
Proof.
  destruct (rejected_advance_stays 0%Z action (foldedTo 45) COMPLETE_STEP
              canProceedFromAction) as (H1 & H2 & _).
  - now left.
  - reflexivity.
  - apply bool_decide_eq_false. unfold foldedTo; simpl. lra.
  - split; [exact H1|exact H2].
Defined.

(** C1 (as stated) fails: in [action] with the fold angle at 45 the guard
    of both events is false, and after either event [context.error] is
    null. *)
Lemma rejected_advance_records_no_error :
  evalGuard canProceedFromAction (foldedTo 45) COMPLETE_STEP = false /\
  evalGuard canProceedFromAction (foldedTo 45) PROCEED_TO_NEXT = false /\
  transition 0%Z (action, foldedTo 45) COMPLETE_STEP = (action, foldedTo 45) /\
  transition 0%Z (action, foldedTo 45) PROCEED_TO_NEXT = (action, foldedTo 45) /\
  error (foldedTo 45) = None.
Proof.
  pose proof foldedTo_45_guard as H.
  assert (H' : evalGuard canProceedFromAction (foldedTo 45) PROCEED_TO_NEXT = false)
    by exact H.
  split; [exact H|]. split; [exact H'|].
  unfold transition, select, enabled; cbn [on eventType find guard].
  rewrite H, H'. cbn. auto.
Qed.

Lemma oneStepBack_cases (previous state : State) :
  oneStepBack previous state <->
  (previous, state) ∈ [ (action, inquiry); (inquiry, discovery);
                        (discovery, misconception); (misconception, justification);
                        (justification, completed) ].
Proof.
  unfold oneStepBack, sequence. rewrite !elem_of_cons, elem_of_nil. split.
  - intros (i & H1 & H2).
    do 6 (destruct i as [|i]; [cbn in H1, H2; injection H1 as <-;
                               try injection H2 as <-; try discriminate; tauto|]).
    discriminate.
  - intros [[= -> ->]|[[= -> ->]|[[= -> ->]|[[= -> ->]|[[= -> ->]|[]]]]]].
    + now exists 0. + now exists 1. + now exists 2. + now exists 3. + now exists 4.
Qed.

(** C5 (as amended). In inquiry, discovery, misconception and justification
    the event PROCEED_TO_PREV is taken and moves the machine exactly one state
    back in the pedagogical sequence; the context is unchanged, except that
    entering [action] clears [error].  In completed the event is not handled:
    state and context stay as they are. *)
Theorem PROCEED_TO_PREV_steps_back (now : Date) (state : State)
    (context : ActivityContext) :
  (state <> action -> state <> completed ->
     oneStepBack (fst (transition now (state, context) PROCEED_TO_PREV)) state /\
     snd (transition now (state, context) PROCEED_TO_PREV) =
       (if decide (state = inquiry) then set_error context None else context)) /\
  (state = completed ->
     transition now (state, context) PROCEED_TO_PREV = (completed, context)).
Proof.
  split.
  - intros Ha Hc. destruct state; try congruence; cbn;
      (split; [apply oneStepBack_cases; rewrite !elem_of_cons; tauto|reflexivity]).
  - intros ->. reflexivity.
Qed.

Lemma PROCEED_TO_PREV_steps_back_witness :
  oneStepBack (fst (transition 0%Z (justification, initialContext) PROCEED_TO_PREV))
              justification /\
  fst (transition 0%Z (justification, initialContext) PROCEED_TO_PREV) = misconception.
Proof.
  split; [|reflexivity].
  apply (proj1 (PROCEED_TO_PREV_steps_back 0%Z justification initialContext));
    discriminate.
Defined.

(** C5 (as stated) fails in completed: PROCEED_TO_PREV leaves the machine in
    completed, which is not one state back. *)
Lemma PROCEED_TO_PREV_ignored_in_completed :
  fst (transition 0%Z (completed, initialContext) PROCEED_TO_PREV) = completed /\
  ~ oneStepBack (fst (transition 0%Z (completed, initialContext) PROCEED_TO_PREV))
                completed.
Proof.
  split; [reflexivity|].
  change (fst (transition 0%Z (completed, initialContext) PROCEED_TO_PREV))
    with completed.
  rewrite oneStepBack_cases, !elem_of_cons, elem_of_nil.
  intros [H|[H|[H|[H|[H|[]]]]]]; discriminate.
Qed.

End ActivityMachineFacts.

(* ===================================================================== *)
(** * Part III: further properties of the code                            *)
(* ===================================================================== *)

Section TriangleFacts.
Import Geometry.
#[local] Open Scope R_scope.

Lemma distance_sym (p q : Point) : distance p q = distance q p.
Proof. unfold distance. f_equal. ring. Qed.

Lemma distance_self (p : Point) : distance p p = 0.
Proof.
  unfold distance.
  replace ((x p - x p) ^ 2 + (y p - y p) ^ 2) with 0 by ring. apply sqrt_0.
Qed.

Lemma distance_nonneg (p q : Point) : 0 <= distance p q.
Proof. unfold distance. apply sqrt_pos. Qed.

Lemma distance_translate (dx dy : R) (p q : Point) :
  distance (mkPoint (x p + dx) (y p + dy)) (mkPoint (x q + dx) (y q + dy))
  = distance p q.
Proof. unfold distance; cbn [x y]. f_equal. ring. Qed.

Lemma angle_translate (dx dy : R) (v p q : Point) :
  angle (mkPoint (x v + dx) (y v + dy)) (mkPoint (x p + dx) (y p + dy))
        (mkPoint (x q + dx) (y q + dy))
  = angle v p q.
Proof.
  unfold angle; cbn [x y].
  replace (x q + dx - (x v + dx)) with (x q - x v) by ring.
  replace (y q + dy - (y v + dy)) with (y q - y v) by ring.
  replace (x p + dx - (x v + dx)) with (x p - x v) by ring.
  replace (y p + dy - (y v + dy)) with (y p - y v) by ring.
  reflexivity.
Qed.

Lemma measureTriangle_createRightTrianglesPair :
  measureTriangle (snd Samples.createRightTrianglesPair)
  = measureTriangle (fst Samples.createRightTrianglesPair).
Proof.
  set (t1 := fst Samples.createRightTrianglesPair).
  assert (E : snd Samples.createRightTrianglesPair
              = mkTriangle (mkPoint (x (A t1) + 4) (y (A t1) + 0))
                           (mkPoint (x (B t1) + 4) (y (B t1) + 0))
                           (mkPoint (x (C t1) + 4) (y (C t1) + 0))).
  { cbn. f_equal; f_equal; lra. }
  rewrite E. unfold measureTriangle; cbn [A B C].
  now rewrite !distance_translate, !angle_translate.
Qed.

End TriangleFacts.

Section TriangleValidity.
Import Geometry.
#[local] Open Scope R_scope.

(** X6. A triangle with two coincident vertices is never accepted by
    [isValidTriangle]. *)
Theorem isValidTriangle_distinct_vertices (t : Triangle) :
  isValidTriangle t = true ->
  A t <> B t /\ A t <> C t /\ B t <> C t.
Proof.
  destruct t as [a b c]. unfold isValidTriangle, measureTriangle; cbn [sides A B C].
  rewrite !andb_true_iff, !bool_decide_eq_true. intros [[H1 H2] H3].
  repeat split; intros ->.
  - rewrite distance_self in H1. lra.
  - rewrite distance_self in H3. rewrite (distance_sym b c) in H3. lra.
  - rewrite distance_self in H2. lra.
Qed.

Lemma isValidTriangle_distinct_vertices_witness :
  A Notions.reflexTriangle <> B Notions.reflexTriangle.
Proof.
  apply (isValidTriangle_distinct_vertices Notions.reflexTriangle).
  apply reflexTriangle_valid.
Defined.

End TriangleValidity.

Section FoldFeedbackFacts.
Import Geometry Fold.
#[local] Open Scope R_scope.

Lemma detectOverlap_below (t : Triangle) (a : R) :
  a < 85 ->
  detectOverlap t (Num a)
  = {| isOverlapping := false; overlapPercentage := Num 0; overlappingElements := [] |}.
Proof.
  intros H. unfold detectOverlap, number_lt.
  now rewrite bool_decide_eq_true_2 by exact H.
Qed.

Lemma detectOverlap_from (t : Triangle) (a : R) :
  85 <= a ->
  isOverlapping (detectOverlap t (Num a)) = true /\
  overlapPercentage (detectOverlap t (Num a))
  = Num (Rmin 100 ((a - 85) / (180 - 85) * 100)).
Proof.
  intros H. unfold detectOverlap, number_lt.
  rewrite bool_decide_eq_false_2 by lra. now split.
Qed.

Lemma overlap_percentage_bounds (a : R) :
  85 <= a -> 0 <= Rmin 100 ((a - 85) / (180 - 85) * 100) <= 100.
Proof.
  intros H. split; [|apply Rmin_l].
  apply Rmin_glb; [lra|].
  assert (0 <= (a - 85) / (180 - 85)) by (apply Rle_mult_inv_pos; lra). lra.
Qed.

(** X10. For a fold angle other than NaN, [detectOverlap] reports an overlap
    exactly from 85 degrees on; its percentage is a number between 0 and
    100, is 0 below 85 degrees and never decreases when the fold angle
    grows.  For NaN it reports an overlap with percentage NaN and no
    overlapping elements. *)
Theorem detectOverlap_percentage_range (t : Triangle) (a b : R) :
  (isOverlapping (detectOverlap t (Num a)) = true <-> 85 <= a) /\
  (exists p, overlapPercentage (detectOverlap t (Num a)) = Num p /\
             0 <= p <= 100 /\ (a < 85 -> p = 0)) /\
  (a <= b ->
   exists p q, overlapPercentage (detectOverlap t (Num a)) = Num p /\
               overlapPercentage (detectOverlap t (Num b)) = Num q /\ p <= q) /\
  detectOverlap t NaN
  = {| isOverlapping := true; overlapPercentage := NaN; overlappingElements := [] |}.
Proof.
  split; [|split; [|split]].
  - destruct (Rlt_le_dec a 85) as [H|H].
    + rewrite detectOverlap_below by exact H. cbn. split; [discriminate|lra].
    + destruct (detectOverlap_from t a H) as [-> _]. tauto.
  - destruct (Rlt_le_dec a 85) as [H|H].
    + rewrite detectOverlap_below by exact H. exists 0. cbn.
      split; [reflexivity|]. split; [lra|reflexivity].
    + destruct (detectOverlap_from t a H) as [_ ->]. eexists.
      split; [reflexivity|]. split; [now apply overlap_percentage_bounds|lra].
  - intros Hab. destruct (Rlt_le_dec a 85) as [Ha|Ha].
    + rewrite (detectOverlap_below t a) by exact Ha.
      destruct (Rlt_le_dec b 85) as [Hb|Hb].
      * rewrite (detectOverlap_below t b) by exact Hb. exists 0, 0. cbn.
        split; [reflexivity|]. split; [reflexivity|lra].
      * destruct (detectOverlap_from t b Hb) as [_ ->]. eexists 0, _. cbn.
        split; [reflexivity|]. split; [reflexivity|].
        now apply overlap_percentage_bounds.
    + destruct (detectOverlap_from t a Ha) as [_ ->].
      destruct (detectOverlap_from t b) as [_ ->]; [lra|].
      eexists _, _. split; [reflexivity|]. split; [reflexivity|].
      apply Rle_min_compat_l.
      apply Rmult_le_compat_r; [lra|]. apply Rmult_le_compat_r; [|lra].
      apply Rlt_le, Rinv_0_lt_compat. lra.
  - reflexivity.
Qed.

Lemma detectOverlap_percentage_range_witness :
  exists p q,
    overlapPercentage (detectOverlap Notions.ISOSCELES_TRIANGLE (Num 90)) = Num p /\
    overlapPercentage (detectOverlap Notions.ISOSCELES_TRIANGLE (Num 170)) = Num q /\
    p <= q.
Proof.
  apply (proj1 (proj2 (proj2
           (detectOverlap_percentage_range Notions.ISOSCELES_TRIANGLE 90 170)))).
  lra.
Defined.

End FoldFeedbackFacts.

Section CongruenceChecks.
Import Geometry Congruence Notions.
#[local] Open Scope R_scope.

Lemma isEqual_nonpositive_tolerance (a b tol : R) : tol <= 0 -> isEqual a b tol = false.
Proof.
  intros H. apply isEqual_false. pose proof (Rabs_pos (a - b)). lra.
Qed.

Lemma isAngleEqual_nonpositive_tolerance (a b tol : R) :
  tol <= 0 -> isAngleEqual a b tol = false.
Proof. apply isEqual_nonpositive_tolerance. Qed.

Lemma isEqual_same (v tol : R) : 0 < tol -> isEqual v v tol = true.
Proof. apply isEqual_refl_iff. Qed.

Lemma isAngleEqual_same (v tol : R) : 0 < tol -> isAngleEqual v v tol = true.
Proof. apply isEqual_refl_iff. Qed.

Lemma checkSSS_Some_iff (t1 t2 : Triangle) (tol : R) :
  checkSSS t1 t2 tol = Some SSS_condition <-> sidesAgree t1 t2 tol.
Proof.
  unfold checkSSS, sidesAgree. cbv zeta.
  rewrite <- !isEqual_true.
  destruct (isEqual _ _ tol), (isEqual _ _ tol), (isEqual _ _ tol); cbn;
    intuition congruence.
Qed.

Lemma checkSSS_sym (t1 t2 : Triangle) (tol : R) :
  checkSSS t1 t2 tol = checkSSS t2 t1 tol.
Proof.
  unfold checkSSS.
  now rewrite (isEqual_sym (AB _)), (isEqual_sym (AC _)), (isEqual_sym (BC _)).
Qed.

(** X12. [checkSSS] returns the SSS condition exactly when AB, AC and BC of
    the two triangles agree pairwise within tolerance, and null otherwise;
    the answer does not depend on the order of the two triangles. *)
Theorem checkSSS_correct (t1 t2 : Triangle) (tol : R) :
  (checkSSS t1 t2 tol = Some SSS_condition <-> sidesAgree t1 t2 tol) /\
  (checkSSS t1 t2 tol = None <-> ~ sidesAgree t1 t2 tol) /\
  checkSSS t1 t2 tol = checkSSS t2 t1 tol.
Proof.
  pose proof (checkSSS_Some_iff t1 t2 tol) as HS.
  split; [exact HS|]. split; [|apply checkSSS_sym].
  assert (Hc : checkSSS t1 t2 tol = Some SSS_condition \/ checkSSS t1 t2 tol = None).
  { unfold checkSSS. destruct (_ && _ && _); auto. }
  destruct Hc as [E|E]; rewrite E in *.
  - split; [discriminate|]. intros N. exfalso. apply N, HS. reflexivity.
  - split; [intros _|reflexivity]. intros H. apply HS in H. discriminate.
Qed.

Lemma checkSAS_same_measurements (t1 t2 : Triangle) (tol : R) :
  0 < tol -> measureTriangle t2 = measureTriangle t1 ->
  checkSAS t1 t2 tol = Some SAS_condition_A.
Proof.
  intros Htol E. unfold checkSAS. rewrite E. cbn [find fst snd sas_sides sas_otherSides
    sas_angle sas_otherAngle sas_elements].
  rewrite ?isEqual_same, ?isAngleEqual_same by exact Htol. reflexivity.
Qed.

Lemma checkSAS_valid (t1 t2 : Triangle) (tol : R) (c : CongruenceCondition) :
  checkSAS t1 t2 tol = Some c -> Geometry.type c = SAS /\ Geometry.isValid c = true.
Proof.
  unfold checkSAS. destruct (find _ _); intros [= <-]. now split.
Qed.

Lemma checkASA_valid (t1 t2 : Triangle) (tol : R) (c : CongruenceCondition) :
  checkASA t1 t2 tol = Some c -> Geometry.type c = ASA /\ Geometry.isValid c = true.
Proof.
  unfold checkASA. destruct (find _ _); intros [= <-]. now split.
Qed.

Lemma checkSSS_valid (t1 t2 : Triangle) (tol : R) (c : CongruenceCondition) :
  checkSSS t1 t2 tol = Some c -> Geometry.type c = SSS /\ Geometry.isValid c = true.
Proof.
  unfold checkSSS. destruct (_ && _ && _); intros [= <-]. now split.
Qed.

Lemma checkRHS_valid (t1 t2 : Triangle) (tol : R) (c : CongruenceCondition) :
  checkRHS t1 t2 tol = Some c -> Geometry.type c = RHS /\ Geometry.isValid c = true.
Proof.
  intros H. destruct (checkRHS_cases t1 t2 tol) as [E|E]; rewrite E in H;
    [|discriminate]. injection H as <-. now split.
Qed.

Lemma checkRHA_cases (t1 t2 : Triangle) (tol : R) :
  checkRHA t1 t2 tol = Some RHA_condition \/ checkRHA t1 t2 tol = None.
Proof.
  unfold checkRHA.
  repeat match goal with |- context [if ?b then _ else _] => destruct b end; auto.
Qed.

Lemma checkRHA_valid (t1 t2 : Triangle) (tol : R) (c : CongruenceCondition) :
  checkRHA t1 t2 tol = Some c -> Geometry.type c = RHA /\ Geometry.isValid c = true.
Proof.
  intros H. destruct (checkRHA_cases t1 t2 tol) as [E|E]; rewrite E in H;
    [|discriminate]. injection H as <-. now split.
Qed.

(** X14. [checkCongruence] answers null exactly when all five checks answer
    null.  A condition it returns is flagged valid, and its type tells which
    checks failed before it: every check earlier in the order SAS, ASA, SSS,
    RHS, RHA answered null. *)
Theorem checkCongruence_first_success (t1 t2 : Triangle) (tol : R) :
  (checkCongruence t1 t2 tol = None <->
     checkSAS t1 t2 tol = None /\ checkASA t1 t2 tol = None /\
     checkSSS t1 t2 tol = None /\ checkRHS t1 t2 tol = None /\
     checkRHA t1 t2 tol = None) /\
  (forall c, checkCongruence t1 t2 tol = Some c ->
     Geometry.isValid c = true /\
     match Geometry.type c with
     | SAS => checkSAS t1 t2 tol = Some c
     | ASA => checkSAS t1 t2 tol = None /\ checkASA t1 t2 tol = Some c
     | SSS => checkSAS t1 t2 tol = None /\ checkASA t1 t2 tol = None /\
              checkSSS t1 t2 tol = Some c
     | RHS => checkSAS t1 t2 tol = None /\ checkASA t1 t2 tol = None /\
              checkSSS t1 t2 tol = None /\ checkRHS t1 t2 tol = Some c
     | RHA => checkSAS t1 t2 tol = None /\ checkASA t1 t2 tol = None /\
              checkSSS t1 t2 tol = None /\ checkRHS t1 t2 tol = None /\
              checkRHA t1 t2 tol = Some c
     end).
Proof.
  unfold checkCongruence; cbn [firstResult].
  destruct (checkSAS t1 t2 tol) as [c1|] eqn:E1.
  { split; [split; [discriminate|intros (H & _); discriminate]|].
    intros c [= <-]. destruct (checkSAS_valid _ _ _ _ E1) as [-> ->]. now split. }
  destruct (checkASA t1 t2 tol) as [c2|] eqn:E2.
  { split; [split; [discriminate|intros (_ & H & _); discriminate]|].
    intros c [= <-]. destruct (checkASA_valid _ _ _ _ E2) as [-> ->]. now split. }
  destruct (checkSSS t1 t2 tol) as [c3|] eqn:E3.
  { split; [split; [discriminate|intros (_ & _ & H & _); discriminate]|].
    intros c [= <-]. destruct (checkSSS_valid _ _ _ _ E3) as [-> ->]. now split. }
  destruct (checkRHS t1 t2 tol) as [c4|] eqn:E4.
  { split; [split; [discriminate|intros (_ & _ & _ & H & _); discriminate]|].
    intros c [= <-]. destruct (checkRHS_valid _ _ _ _ E4) as [-> ->]. now split. }
  destruct (checkRHA t1 t2 tol) as [c5|] eqn:E5.
  { split; [split; [discriminate|intros (_ & _ & _ & _ & H); discriminate]|].
    intros c [= <-]. destruct (checkRHA_valid _ _ _ _ E5) as [-> ->]. now split. }
  split; [tauto|]. intros c H. discriminate.
Qed.

Lemma checkCongruence_first_success_witness :
  Geometry.isValid SAS_condition_A = true /\
  checkSAS (fst Samples.createRightTrianglesPair)
           (snd Samples.createRightTrianglesPair) 0.001
  = Some SAS_condition_A.
Proof.
  assert (E : checkSAS (fst Samples.createRightTrianglesPair)
                       (snd Samples.createRightTrianglesPair) 0.001
              = Some SAS_condition_A).
  { apply checkSAS_same_measurements;
      [lra|apply measureTriangle_createRightTrianglesPair]. }
  apply (proj2 (checkCongruence_first_success
                  (fst Samples.createRightTrianglesPair)
                  (snd Samples.createRightTrianglesPair) 0.001)
               SAS_condition_A).
  unfold checkCongruence; cbn [firstResult]. now rewrite E.
Defined.

(** X15. At a tolerance of 0 or below no check ever reports a congruence,
    not even between a triangle and itself. *)
Theorem checkCongruence_nonpositive_tolerance (t1 t2 : Triangle) (tol : R) :
  tol <= 0 ->
  checkSAS t1 t2 tol = None /\ checkASA t1 t2 tol = None /\
  checkSSS t1 t2 tol = None /\ checkRHS t1 t2 tol = None /\
  checkRHA t1 t2 tol = None /\ checkCongruence t1 t2 tol = None.
Proof.
  intros Htol.
  assert (H1 : checkSAS t1 t2 tol = None).
  { unfold checkSAS. cbn [find fst snd sas_sides sas_otherSides].
    now rewrite !(isEqual_nonpositive_tolerance _ _ tol Htol). }
  assert (H2 : checkASA t1 t2 tol = None).
  { unfold checkASA. cbn [find fst snd asa_angles asa_otherAngles].
    now rewrite !(isAngleEqual_nonpositive_tolerance _ _ tol Htol). }
  assert (H3 : checkSSS t1 t2 tol = None).
  { unfold checkSSS. now rewrite !(isEqual_nonpositive_tolerance _ _ tol Htol). }
  assert (H4 : checkRHS t1 t2 tol = None).
  { unfold checkRHS. now rewrite !(isAngleEqual_nonpositive_tolerance _ _ tol Htol). }
  assert (H5 : checkRHA t1 t2 tol = None).
  { unfold checkRHA. now rewrite !(isAngleEqual_nonpositive_tolerance _ _ tol Htol). }
  repeat split; try assumption.
  unfold checkCongruence; cbn [firstResult]. now rewrite H1, H2, H3, H4, H5.
Qed.

Lemma checkCongruence_nonpositive_tolerance_witness :
  checkCongruence Notions.ISOSCELES_TRIANGLE Notions.ISOSCELES_TRIANGLE 0 = None.
Proof.
  apply (checkCongruence_nonpositive_tolerance
           Notions.ISOSCELES_TRIANGLE Notions.ISOSCELES_TRIANGLE 0). lra.
Defined.

End CongruenceChecks.

Section RightAngleAndFoldChecks.
Import Geometry Congruence Notions.
#[local] Open Scope R_scope.


End RightAngleAndFoldChecks.

Section RegistryOperations.
Import Geometry ChipSystem Notions.

Lemma map_set_same {V : Type} (m : list (string * V)) (k : string) (v : V) :
  map_get m k = Some v -> map_set m k v = m.
Proof.
  induction m as [|[k' v'] m IH]; simpl; [discriminate|].
  destruct (decide (k' = k)) as [->|Hne].
  - now intros [= ->].
  - intros H. now rewrite IH.
Qed.

Lemma map_set_set {V : Type} (m : list (string * V)) (k : string) (v v' : V) :
  map_set (map_set m k v) k v' = map_set m k v'.
Proof.
  induction m as [|[k0 v0] m IH]; simpl.
  - now rewrite decide_True.
  - destruct (decide (k0 = k)) as [->|Hne]; simpl.
    + now rewrite decide_True.
    + rewrite decide_False by exact Hne. now rewrite IH.
Qed.

Lemma map_get_set_ne {V : Type} (m : list (string * V)) (k k' : string) (v : V) :
  k <> k' -> map_get (map_set m k v) k' = map_get m k'.
Proof.
  intros Hne. induction m as [|[k0 v0] m IH]; simpl.
  - now rewrite decide_False.
  - destruct (decide (k0 = k)) as [->|Hne0]; simpl.
    + now rewrite !decide_False by exact Hne.
    + destruct (decide (k0 = k')); [reflexivity|exact IH].
Qed.

Lemma set_delete_add (s : list string) (k : string) :
  k ∉ s -> set_delete (set_add s k) k = s.
Proof.
  intros Hk. unfold set_delete, set_add. rewrite decide_False by exact Hk.
  rewrite filter_app. cbn. rewrite decide_False by (intros H; now apply H).
  rewrite app_nil_r.
  induction s as [|k' s IH]; [reflexivity|].
  apply not_elem_of_cons in Hk as [Hne Hk].
  rewrite filter_cons_True by congruence. now rewrite IH.
Qed.

Lemma with_collected_undo (chip : Chip) :
  collected chip = false -> with_collected (with_collected chip true) false = chip.
Proof. destruct chip; cbn. now intros ->. Qed.

Lemma uncollectChip_false_iff this chipId :
  fst (uncollectChip this chipId) = false
  <-> map_get (chips this) chipId = None \/
      exists chip, map_get (chips this) chipId = Some chip /\ collected chip = false.
Proof.
  unfold uncollectChip.
  destruct (map_get (chips this) chipId) as [chip|]; [|cbn; tauto].
  destruct (collected chip) eqn:E; cbn.
  - split; [discriminate|]. intros [H|(c & [= <-] & H)]; congruence.
  - split; [intros _|reflexivity]. right. now exists chip.
Qed.

(** X21. [uncollectChip] returns false, leaving the registry as it is,
    exactly when the chip does not exist or is not collected; otherwise it
    returns true, clears the chip's collected flag and removes the id from the
    collected-set.  In a registry whose flags and collected-set agree, a
    successful [collectChip] followed by [uncollectChip] of the same id gives
    back the registry started from. *)
Theorem uncollectChip_spec (this : ChipSystemManager) (chipId : string)
    (triangle : Triangle) (foldPoint : option Point) :
  let result := uncollectChip this chipId in
  (fst result = false <->
     map_get (chips this) chipId = None \/
     exists chip, map_get (chips this) chipId = Some chip /\ collected chip = false) /\
  (fst result = false -> snd result = this) /\
  (fst result = true ->
     (exists chip, map_get (chips this) chipId = Some chip /\
        map_get (chips (snd result)) chipId = Some (with_collected chip false)) /\
     chipId ∉ collectedChips (snd result)) /\
  (flagsMatchSet this ->
   fst (collectChip this chipId triangle foldPoint) = true ->
   uncollectChip (snd (collectChip this chipId triangle foldPoint)) chipId
   = (true, this)).
Proof.
  cbv zeta. split; [apply uncollectChip_false_iff|]. split; [|split].
  - unfold uncollectChip.
    destruct (map_get (chips this) chipId) as [chip|]; [|reflexivity].
    destruct (collected chip); [discriminate|reflexivity].
  - unfold uncollectChip.
    destruct (map_get (chips this) chipId) as [chip|]; [|discriminate].
    destruct (collected chip); [|discriminate]. intros _. cbn. split.
    + exists chip. split; [reflexivity|apply map_get_set_eq].
    + unfold set_delete. rewrite list_elem_of_filter. tauto.
  - intros Hmatch Hc.
    destruct (collectChip_true _ _ _ _ Hc) as (chip & Hget & ->).
    assert (Hflag : collected chip = false).
    { unfold collectChip in Hc. rewrite Hget in Hc.
      destruct (collected chip); [discriminate|reflexivity]. }
    assert (Hnin : chipId ∉ collectedChips this).
    { intros Hin. apply (Hmatch _ _ Hget) in Hin. congruence. }
    unfold uncollectChip; cbn [chips collectedChips].
    rewrite map_get_set_eq. cbn.
    rewrite map_set_set, (with_collected_undo chip Hflag).
    rewrite (map_set_same _ _ _ Hget), (set_delete_add _ _ Hnin).
    now destruct this.
Qed.

End RegistryOperations.

Section RegistryFlags.
Import Geometry ChipSystem Notions.

Lemma map_get_map {V : Type} (f : V -> V) (m : list (string * V)) (k : string) :
  map_get (map (fun kv => (kv.1, f kv.2)) m) k = f <$> map_get m k.
Proof.
  induction m as [|[k' v] m IH]; simpl; [reflexivity|].
  destruct (decide (k' = k)); [reflexivity|exact IH].
Qed.

Lemma map_get_forEach_set {V : Type} (f : V -> V) (m : list (string * V)) (k : string) :
  NoDup (keys m) -> map_get (map_forEach_set f m) k = f <$> map_get m k.
Proof.
  intros Hnd. rewrite map_forEach_set_map by exact Hnd. apply map_get_map.
Qed.

Lemma map_get_elem_of {V : Type} (m : list (string * V)) (k : string) (v : V) :
  NoDup (keys m) -> (map_get m k = Some v <-> (k, v) ∈ m).
Proof.
  unfold keys. induction m as [|[k' v'] m IH]; simpl; intros Hnd.
  - rewrite elem_of_nil. split; [discriminate|easy].
  - apply NoDup_cons in Hnd as [Hk Hnd]. rewrite elem_of_cons.
    destruct (decide (k' = k)) as [->|Hne].
    + split.
      * intros [= ->]. now left.
      * intros [[= ->]|Hin]; [reflexivity|].
        exfalso. apply Hk. apply list_elem_of_fmap. now exists (k, v).
    + rewrite (IH Hnd). split; [now right|].
      intros [[= -> ->]|Hin]; [congruence|exact Hin].
Qed.

Lemma flagsMatchSet_new : flagsMatchSet new.
Proof.
  intros chipId chip Hget. cbn [collectedChips new]. rewrite elem_of_nil.
  destruct wellFormed_new as [_ He]. rewrite <- He in Hget.
  unfold erased in Hget. rewrite map_get_map in Hget.
  destruct (map_get (chips new) chipId) as [c|]; [|discriminate].
  injection Hget as <-. cbn. split; [discriminate|easy].
Qed.

Lemma flagsMatchSet_perform this op :
  wellFormed this -> notImport op -> flagsMatchSet this ->
  flagsMatchSet (perform this op).
Proof.
  intros Hwf Hop Hm. pose proof (wellFormed_keys_NoDup _ Hwf) as Hnd.
  destruct op as [t fp|id t fp|id| |state]; cbn [perform notImport] in *.
  - intros k chip. unfold updateAvailability; cbn [chips collectedChips].
    rewrite map_get_forEach_set by exact Hnd.
    destruct (map_get (chips this) k) as [c|] eqn:Hget; [|discriminate].
    intros [= <-]. rewrite <- (Hm k c Hget). now destruct (validationRule c).
  - destruct (fst (collectChip this id t fp)) eqn:E.
    + destruct (collectChip_true _ _ _ _ E) as (chip & Hget & ->).
      intros k c. cbn [snd chips collectedChips].
      destruct (decide (id = k)) as [<-|Hne].
      * rewrite map_get_set_eq. intros [= <-]. cbn.
        split; [intros _; apply set_add_elem|reflexivity].
      * rewrite map_get_set_ne by exact Hne. intros Hk.
        rewrite (Hm k c Hk). unfold set_add.
        destruct (decide (id ∈ collectedChips this)); [reflexivity|].
        rewrite elem_of_app, list_elem_of_singleton. split; [tauto|].
        intros [H|H]; [exact H|congruence].
    + now rewrite collectChip_false_unchanged.
  - unfold uncollectChip.
    destruct (map_get (chips this) id) as [chip|] eqn:Hget; [|exact Hm].
    destruct (negb (collected chip)); [exact Hm|].
    intros k c. cbn [snd chips collectedChips].
    unfold set_delete. rewrite list_elem_of_filter.
    destruct (decide (id = k)) as [<-|Hne].
    * rewrite map_get_set_eq. intros [= <-]. cbn. split; [discriminate|].
      intros [H _]. now contradiction H.
    * rewrite map_get_set_ne by exact Hne. intros Hk.
      rewrite (Hm k c Hk). split; [intros H; split; [congruence|exact H]|tauto].
  - intros k chip. unfold reset; cbn [chips collectedChips].
    rewrite map_get_forEach_set by exact Hnd. rewrite elem_of_nil.
    destruct (map_get (chips this) k) as [c|]; [|discriminate].
    intros [= <-]. cbn. split; [discriminate|easy].
  - destruct Hop.
Qed.

Lemma flagsMatchSet_foldl ops this :
  wellFormed this -> Forall notImport ops -> flagsMatchSet this ->
  flagsMatchSet (foldl perform this ops).
Proof.
  revert this. induction ops as [|op ops IH]; intros this Hwf Hops Hm; simpl.
  - exact Hm.
  - apply Forall_cons in Hops as [Hop Hops]. apply IH.
    + now apply wellFormed_perform.
    + exact Hops.
    + now apply flagsMatchSet_perform.
Qed.

Lemma flagsMatchSet_after ops : Forall notImport ops -> flagsMatchSet (after ops).
Proof.
  intros H. apply flagsMatchSet_foldl;
    [apply wellFormed_new|exact H|apply flagsMatchSet_new].
Qed.

Lemma insertByOrder_length (chip : Chip) (l : list Chip) :
  length (insertByOrder chip l) = S (length l).
Proof.
  induction l as [|c l IH]; simpl; [reflexivity|].
  destruct (decide (order c <= order chip)%Z); simpl; [now rewrite IH|reflexivity].
Qed.

Lemma sortByOrder_length (l : list Chip) : length (sortByOrder l) = length l.
Proof.
  unfold sortByOrder.
  enough (G : forall acc,
            length (foldl (fun acc chip => insertByOrder chip acc) acc l)
            = length acc + length l) by apply (G []).
  induction l as [|c l IH]; intros acc; simpl; [lia|].
  rewrite IH, insertByOrder_length. lia.
Qed.

Lemma filter_snd_length (P : Chip -> Prop) `{!forall c, Decision (P c)}
    (m : list (string * Chip)) :
  length (filter P (map snd m)) = length (filter (fun kc => P kc.2) m).
Proof.
  induction m as [|[k c] m IH]; [reflexivity|].
  cbn [map snd]. rewrite !filter_cons. cbn [snd].
  destruct (decide (P c)); simpl; now rewrite IH.
Qed.

Lemma notImport_knownIds ops : Forall notImport ops -> Forall knownIds ops.
Proof.
  intros Hops. apply (Forall_impl _ _ _ Hops).
  intros [] H; cbn in *; (exact I || destruct H).
Qed.

(** X22. Along every sequence of operations without [importState], a chip's
    collected flag is true exactly when its id is in the collected-set, and
    [getCollectedChips] returns as many chips as [getProgress] counts as
    collected. *)
Theorem collected_flags_match_set (ops : list Operation) :
  Forall notImport ops ->
  flagsMatchSet (after ops) /\
  length (getCollectedChips (after ops))
  = progress_collected (getProgress (after ops)).
Proof.
  intros Hops. pose proof (flagsMatchSet_after ops Hops) as Hm.
  split; [exact Hm|].
  pose proof (wellFormed_after ops) as Hwf.
  pose proof (wellFormed_keys_NoDup _ Hwf) as Hnd.
  unfold getCollectedChips, getProgress; cbn [progress_collected].
  rewrite sortByOrder_length, filter_snd_length.
  set (m := chips (after ops)) in *.
  rewrite <- (length_map fst).
  apply Permutation_length, NoDup_Permutation.
  - apply (sublist_NoDup _ (keys m)); [exact Hnd|].
    unfold keys. apply fmap_sublist, sublist_filter.
  - apply Hwf.
  - intros k. rewrite list_elem_of_fmap. split.
    + intros ([k' c] & -> & Hin). apply list_elem_of_filter in Hin as [Hc Hin].
      cbn in *. apply (Hm k' c); [|exact Hc]. now apply map_get_elem_of.
    + intros Hin.
      assert (Hk : k ∈ keys m).
      { unfold m. rewrite (wellFormed_keys _ Hwf).
        apply (collected_known_foldl ops new);
          [apply wellFormed_new|now apply notImport_knownIds| |exact Hin].
        intros k' H. now apply elem_of_nil in H. }
      destruct (map_get m k) as [c|] eqn:Hget.
      * exists (k, c). split; [reflexivity|]. apply list_elem_of_filter. split.
        -- cbn. now apply (Hm k c).
        -- now apply map_get_elem_of.
      * apply map_get_None in Hget. contradiction.
Qed.

Lemma collected_flags_match_set_witness :
  length (getCollectedChips threeSidesCollected)
  = progress_collected (getProgress threeSidesCollected).
Proof.
  apply (collected_flags_match_set
           [ UpdateAvailability ISOSCELES_TRIANGLE None;
             CollectChip "side-AB" ISOSCELES_TRIANGLE None;
             CollectChip "side-AC" ISOSCELES_TRIANGLE None;
             CollectChip "common-AD" ISOSCELES_TRIANGLE None ]).
  repeat constructor.
Defined.

(** X23. [reset] brings every reachable registry, whatever was collected or
    imported before, back to the state of a newly constructed one. *)
Theorem reset_restores_new (ops : list Operation) : reset (after ops) = new.
Proof.
  pose proof (wellFormed_after ops) as Hwf.
  pose proof (wellFormed_keys_NoDup _ Hwf) as Hnd.
  destruct Hwf as [_ He]. unfold reset.
  rewrite map_forEach_set_map by exact Hnd.
  change (map (fun kv : string * Chip =>
                 (kv.1, with_isAvailable (with_collected kv.2 false) false))
              (chips (after ops)))
    with (erased (chips (after ops))).
  now rewrite He.
Qed.

End RegistryFlags.

Section RegistryRules.
Import Geometry ChipSystem Notions.
#[local] Open Scope string_scope.

Lemma uncollectChip_spec_witness :
  let this := after [UpdateAvailability ISOSCELES_TRIANGLE None] in
  uncollectChip (snd (collectChip this "common-AD" ISOSCELES_TRIANGLE None)) "common-AD"
  = (true, this).
Proof.
  intros this.
  apply (proj2 (proj2 (proj2
           (uncollectChip_spec this "common-AD" ISOSCELES_TRIANGLE None)))).
  - apply flagsMatchSet_after. repeat constructor.
  - reflexivity.
Defined.

Lemma erase_validationRule (chip : Chip) :
  validationRule (erase chip) = validationRule chip.
Proof. reflexivity. Qed.

Lemma erase_hint_label (chip : Chip) :
  hint (erase chip) = hint chip /\ label (erase chip) = label chip.
Proof. now split. Qed.

(** In a reachable registry a chip is stored under every id of the initial
    registry, and it differs from the initial chip by its flags only. *)
Lemma static_chip (ops : list Operation) (chipId : string) (initial : Chip) :
  map_get (chips new) chipId = Some initial ->
  exists chip, map_get (chips (after ops)) chipId = Some chip /\ erase chip = initial.
Proof.
  destruct (wellFormed_after ops) as [_ He]. rewrite <- He.
  unfold erased. rewrite map_get_map.
  destruct (map_get (chips (after ops)) chipId) as [chip|]; [|discriminate].
  intros [= <-]. now exists chip.
Qed.

(** X24. In every reachable registry, however stale its availability flags,
    [collectChip] refuses side-AB and side-AC when the triangle passed to the
    call is not isosceles. *)
Theorem collectChip_sides_need_isosceles (ops : list Operation) (chipId : string)
    (triangle : Triangle) (foldPoint : option Point) :
  chipId = "side-AB" \/ chipId = "side-AC" ->
  isIsosceles triangle default_tolerance = false ->
  collectChip (after ops) chipId triangle foldPoint = (false, after ops).
Proof.
  intros Hid Hiso.
  assert (Hrule : exists chip,
            map_get (chips (after ops)) chipId = Some chip /\
            validationRule chip
            = Some (fun triangle _ => isIsosceles triangle default_tolerance)).
  { destruct Hid as [-> | ->].
    - destruct (static_chip ops "side-AB" _ eq_refl) as (chip & Hget & He).
      exists chip. split; [exact Hget|].
      now rewrite <- (erase_validationRule chip), He.
    - destruct (static_chip ops "side-AC" _ eq_refl) as (chip & Hget & He).
      exists chip. split; [exact Hget|].
      now rewrite <- (erase_validationRule chip), He. }
  destruct Hrule as (chip & Hget & Hrule).
  unfold collectChip. rewrite Hget, Hrule, Hiso.
  now destruct (collected chip || negb (isAvailable chip)).
Qed.

Lemma scalene_not_isosceles :
  isIsosceles (mkTriangle (mkPoint 0 0) (mkPoint 3 0) (mkPoint 0 4)) default_tolerance
  = false.
Proof.
  unfold isIsosceles, measureTriangle, distance, default_tolerance; cbn [sides AB AC A B C x y].
  apply bool_decide_eq_false.
  replace ((3 - 0) ^ 2 + (0 - 0) ^ 2)%R with (3 * 3)%R by ring.
  replace ((0 - 0) ^ 2 + (4 - 0) ^ 2)%R with (4 * 4)%R by ring.
  rewrite !sqrt_square by lra.
  replace (3 - 4)%R with (- (1))%R by ring. rewrite Rabs_Ropp, Rabs_R1. lra.
Qed.

Lemma collectChip_sides_need_isosceles_witness :
  fst (collectChip (after [UpdateAvailability ISOSCELES_TRIANGLE None]) "side-AB"
         (mkTriangle (mkPoint 0 0) (mkPoint 3 0) (mkPoint 0 4)) None) = false.
Proof.
  rewrite (collectChip_sides_need_isosceles _ "side-AB"
             (mkTriangle (mkPoint 0 0) (mkPoint 3 0) (mkPoint 0 4)) None).
  - reflexivity.
  - now left.
  - apply scalene_not_isosceles.
Defined.

Lemma Math_round_quarters (n : nat) :
  Math_round (INR n / 4 * 100) = (25 * INR n)%R.
Proof.
  unfold Math_round.
  rewrite <- (Int_part_spec (INR n / 4 * 100 + 0.5) (25 * Z.of_nat n)).
  - rewrite mult_IZR, <- INR_IZR_INZ. reflexivity.
  - rewrite mult_IZR, <- INR_IZR_INZ. lra.
Qed.

Lemma validateChipCombination_missing (ids : list string) (chipId : string) :
  chipId ∈ combination_missingChips (validateChipCombination ids)
  <-> chipId ∈ REQUIRED_SAS_CHIPS /\ chipId ∉ ids.
Proof.
  unfold validateChipCombination; cbn [combination_missingChips].
  rewrite list_elem_of_filter. unfold includes.
  rewrite bool_decide_eq_false. unfold REQUIRED_SAS_CHIPS. tauto.
Qed.

Lemma validateChipCombination_isValid (ids : list string) :
  combination_isValid (validateChipCombination ids) = isSASChipSetComplete ids.
Proof.
  unfold validateChipCombination, isSASChipSetComplete; cbn [combination_isValid].
  rewrite !filter_cons, filter_nil.
  destruct (includes ids "angle-BAD"), (includes ids "angle-CAD"),
    (includes ids "side-AB"), (includes ids "side-AC"), (includes ids "common-AD");
    reflexivity.
Qed.

Lemma validateCollection_missing (this : ChipSystemManager)
    (triangle : Triangle) (foldPoint : option Point) (chipId : string) :
  chipId ∈ missingChips (validateCollection this triangle foldPoint)
  <-> chipId ∈ REQUIRED_SAS_CHIPS /\ chipId ∉ collectedChips this.
Proof.
  unfold validateCollection.
  pose proof (validateChipCombination_missing (collectedChips this)) as Hmiss.
  destruct (combination_isValid (validateChipCombination (collectedChips this)));
    cbn [missingChips]; apply Hmiss.
Qed.

(** X25. [validateCollection] reports valid exactly when
    [isSASChipSetComplete] accepts the collected ids; its missing chips are
    the required ids not yet collected, and the congruence type is SAS when
    valid and null otherwise.  The completion percentage is 100 when valid and
    otherwise 25 for each collected chip, whichever chips they are. *)
Theorem validateCollection_spec (this : ChipSystemManager)
    (triangle : Triangle) (foldPoint : option Point) :
  let result := validateCollection this triangle foldPoint in
  isValid result = isSASChipSetComplete (collectedChips this) /\
  (forall chipId,
     chipId ∈ missingChips result
     <-> chipId ∈ REQUIRED_SAS_CHIPS /\ chipId ∉ collectedChips this) /\
  congruenceType result = (if isValid result then Some SAS else None) /\
  completionPercentage result
  = (if isValid result then 100 else 25 * INR (length (collectedChips this)))%R.
Proof.
  cbv zeta. unfold validateCollection.
  pose proof (validateChipCombination_isValid (collectedChips this)) as Hv.
  pose proof (validateChipCombination_missing (collectedChips this)) as Hmiss.
  destruct (combination_isValid (validateChipCombination (collectedChips this)))
    eqn:E; cbn [isValid missingChips congruenceType completionPercentage].
  - split; [exact Hv|]. split; [exact Hmiss|]. split; [|reflexivity].
    unfold validateChipCombination in *; cbn in E |- *. now rewrite E.
  - split; [exact Hv|]. split; [exact Hmiss|]. split; [|apply Math_round_quarters].
    unfold validateChipCombination in *; cbn in E |- *. now rewrite E.
Qed.

Lemma required_chip_hint (chipId : string) :
  chipId ∈ REQUIRED_SAS_CHIPS ->
  exists initial h,
    map_get (chips new) chipId = Some initial /\ hint initial = Some h /\ h <> "".
Proof.
  unfold REQUIRED_SAS_CHIPS. rewrite !elem_of_cons, elem_of_nil.
  intros [->|[->|[->|[->|[->|[]]]]]]; eexists; eexists;
    (split; [reflexivity|split; [reflexivity|discriminate]]).
Qed.

(** X26. In every reachable registry [getNextHint] answers with the
    completion message when the collection is valid, and otherwise with the
    hint that the static definitions give for the first missing required
    chip; the generic prompt is never returned. *)
Theorem getNextHint_first_missing (ops : list Operation)
    (triangle : Triangle) (foldPoint : option Point) :
  let this := after ops in
  let validation := validateCollection this triangle foldPoint in
  (isValid validation = true ->
   getNextHint this triangle foldPoint
   = "모든 조건을 찾았습니다! 다음 단계로 진행하세요.") /\
  (isValid validation = false ->
   exists first initial h,
     head (missingChips validation) = Some first /\
     map_get (chips new) first = Some initial /\
     hint initial = Some h /\
     getNextHint this triangle foldPoint = h).
Proof.
  cbv zeta. split.
  - intros Hv. unfold getNextHint. now rewrite Hv.
  - intros Hv. unfold getNextHint. rewrite Hv.
    pose proof (validateCollection_missing (after ops) triangle foldPoint) as Hmiss.
    destruct (missingChips (validateCollection (after ops) triangle foldPoint))
      as [|first rest] eqn:Em.
    { exfalso. revert Hv Em. unfold validateCollection.
      destruct (combination_isValid _) eqn:E; cbn [isValid missingChips];
        [discriminate|].
      intros _ Em. unfold validateChipCombination in E; cbn in E, Em.
      rewrite Em in E. discriminate. }
    assert (Hreq : first ∈ REQUIRED_SAS_CHIPS).
    { apply (Hmiss first). apply elem_of_cons. now left. }
    destruct (required_chip_hint first Hreq) as (initial & h & Hget & Hh & Hne).
    destruct (static_chip ops first initial Hget) as (chip & Hc & He).
    exists first, initial, h. split; [reflexivity|]. split; [exact Hget|].
    split; [exact Hh|].
    rewrite Hc. destruct (erase_hint_label chip) as [Hhint _].
    rewrite <- Hhint, He, Hh. now rewrite decide_False.
Qed.

Lemma getNextHint_first_missing_witness :
  getNextHint (after []) ISOSCELES_TRIANGLE None = "각의 이등분선이 만든 각 중 하나".
Proof.
  destruct (proj2 (getNextHint_first_missing [] ISOSCELES_TRIANGLE None) eq_refl)
    as (first & initial & h & Hfirst & Hget & Hh & ->).
  cbn in Hfirst. injection Hfirst as <-.
  cbn in Hget. injection Hget as <-. cbn in Hh. now injection Hh as <-.
Defined.

End RegistryRules.

Section ActivityMachineInvariants.
Import ActivityMachine MachineNotions.
#[local] Open Scope R_scope.

Ltac step_cases :=
  unfold transition, select, enabled, take;
  cbn [on root_on eventType find guard target actions entry run foldl fst snd];
  repeat match goal with
         | |- context [evalGuard ?g ?c ?e] => destruct (evalGuard g c e) eqn:?
         end;
  cbn [on root_on eventType find guard target actions entry run foldl fst snd exec];
  repeat case_decide; try congruence;
  cbn [on root_on eventType find guard target actions entry run foldl fst snd exec
       foldAngle collectedChips selectedAnswer highlightedElements stepCompletion
       error completedAt set_foldAngle set_collectedChips set_selectedAnswer
       set_highlightedElements set_stepCompletion set_error set_completedAt
       initialContext step_action step_inquiry step_discovery step_misconception
       step_justification].

Lemma dispatchAll_invariant (P : State * ActivityContext -> Prop) :
  (forall now snapshot event, P snapshot -> P (transition now snapshot event)) ->
  forall events snapshot, P snapshot -> P (dispatchAll snapshot events).
Proof.
  intros Hstep events. unfold dispatchAll.
  induction events as [|[now event] events IH]; intros snapshot HP; simpl.
  - exact HP.
  - apply IH, Hstep, HP.
Qed.

Lemma clamp_range (a : R) : 0 <= Rmax 0 (Rmin 180 a) <= 180.
Proof. split; [apply Rmax_l|apply Rmax_lub; [lra|apply Rmin_l]]. Qed.

Lemma foldAngle_step now state context event :
  0 <= foldAngle context <= 180 ->
  0 <= foldAngle (snd (transition now (state, context) event)) <= 180.
Proof.
  intros H. destruct state, event; step_cases;
    try exact H; try lra; apply clamp_range.
Qed.

(** X27. A SET_FOLD_ANGLE event whose angle is a number other than NaN is
    taken in every state: the state stays, the fold angle becomes the angle
    of the event clamped into [0, 180] (the angle itself when it already lies
    there) and no other field changes.  As long as no event carries NaN as
    its angle, the fold angle of the context stays within [0, 180] whatever
    events are dispatched from the start. *)
Theorem foldAngle_always_clamped :
  (forall now state context a,
     transition now (state, context) (SET_FOLD_ANGLE a)
     = (state, set_foldAngle context (Rmax 0 (Rmin 180 a))) /\
     (0 <= a <= 180 -> Rmax 0 (Rmin 180 a) = a)) /\
  (forall events,
     0 <= foldAngle (snd (dispatchAll initialSnapshot events)) <= 180).
Proof.
  split.
  - intros now state context a. split.
    + destruct state; reflexivity.
    + intros [H0 H1]. rewrite Rmin_right by exact H1. now apply Rmax_right.
  - intros events.
    apply (dispatchAll_invariant (fun snapshot => 0 <= foldAngle (snd snapshot) <= 180)).
    + intros now [state context] event. apply foldAngle_step.
    + cbn. lra.
Qed.

Lemma foldAngle_always_clamped_witness : Rmax 0 (Rmin 180 45) = 45.
Proof.
  apply (proj2 (proj1 foldAngle_always_clamped 0%Z action initialContext 45)). lra.
Defined.

Lemma hasValidChip_true context chipId :
  evalGuard hasValidChip context (COLLECT_CHIP chipId) = true ->
  chipId ∈ validChipIds /\ chipId ∉ collectedChips context.
Proof.
  cbn [evalGuard]. rewrite andb_true_iff, negb_true_iff.
  unfold ChipSystem.includes. rewrite bool_decide_eq_true, bool_decide_eq_false.
  tauto.
Qed.

Lemma chipIds_step now state context event :
  chipIdsWellFormed context ->
  chipIdsWellFormed (snd (transition now (state, context) event)).
Proof.
  intros H. destruct state, event; step_cases; try exact H;
    try (split; [apply NoDup_nil_2|intros k Hk; now apply elem_of_nil in Hk]).
  (* discovery, COLLECT_CHIP with a valid chip *)
  match goal with
  | Hg : evalGuard hasValidChip _ _ = true |- _ =>
      apply hasValidChip_true in Hg as [Hvalid Hfresh]
  end.
  unfold ChipSystem.includes. rewrite bool_decide_eq_false_2 by exact Hfresh.
  unfold chipIdsWellFormed. cbn [negb collectedChips set_collectedChips].
  destruct H as [Hnd Hsub]. split.
  - apply NoDup_app. split; [exact Hnd|]. split; [|apply NoDup_singleton].
    intros k Hk Hk'. apply list_elem_of_singleton in Hk'. congruence.
  - intros k. rewrite elem_of_app, list_elem_of_singleton.
    intros [Hk| ->]; [now apply Hsub|exact Hvalid].
Qed.

(** X28. Whatever events are dispatched from the start, the collected chip
    ids of the context never contain an id twice and are all ids of static
    chip definitions; outside the discovery state a COLLECT_CHIP event changes
    nothing. *)
Theorem collectedChips_always_well_formed :
  (forall events, chipIdsWellFormed (snd (dispatchAll initialSnapshot events))) /\
  (forall now state context chipId,
     state <> discovery ->
     transition now (state, context) (COLLECT_CHIP chipId) = (state, context)).
Proof.
  split.
  - intros events.
    apply (dispatchAll_invariant (fun snapshot => chipIdsWellFormed (snd snapshot))).
    + intros now [state context] event. apply chipIds_step.
    + split; [apply NoDup_nil_2|intros k Hk; now apply elem_of_nil in Hk].
  - intros now state context chipId Hs. destruct state; try reflexivity. congruence.
Qed.

Lemma collectedChips_always_well_formed_witness :
  transition 0%Z (action, initialContext) (COLLECT_CHIP "side-AB")
  = (action, initialContext).
Proof.
  apply (proj2 collectedChips_always_well_formed). discriminate.
Defined.

Lemma steps_step now state context event :
  stepsMarked state (stepCompletion context) /\
  step_misconception (stepCompletion context) = false ->
  let next := transition now (state, context) event in
  stepsMarked (fst next) (stepCompletion (snd next)) /\
  step_misconception (stepCompletion (snd next)) = false.
Proof.
  intros [Hm Hmis]. cbv zeta.
  destruct state, event; step_cases; cbn [stepsMarked] in *; tauto.
Qed.

(** X29. Whatever events are dispatched from the start, every step that
    lies before the current state is marked completed in
    [context.stepCompletion] (action before inquiry, inquiry before
    discovery, discovery before misconception and justification,
    justification before completed), and the misconception step is never
    marked. *)
Theorem stepCompletion_tracks_state (events : list (Date * ActivityEvent)) :
  let snapshot := dispatchAll initialSnapshot events in
  stepsMarked (fst snapshot) (stepCompletion (snd snapshot)) /\
  step_misconception (stepCompletion (snd snapshot)) = false.
Proof.
  apply (dispatchAll_invariant
           (fun snapshot =>
              stepsMarked (fst snapshot) (stepCompletion (snd snapshot)) /\
              step_misconception (stepCompletion (snd snapshot)) = false)).
  - intros now [state context] event. apply steps_step.
  - now split.
Qed.

Lemma completed_step now state context event :
  (state = completed -> completedAt context <> None) ->
  let next := transition now (state, context) event in
  fst next = completed -> completedAt (snd next) <> None.
Proof.
  intros H. cbv zeta.
  destruct state, event; step_cases; try discriminate; try (intros _; now apply H).
Qed.

(** X30. RESET_MODULE is taken in every state and leads to [action] with
    every field of the initial context restored (the completion time stamp
    apart).  The state completed is only entered with the time stamp set,
    and there every event other than RESET_MODULE and SET_FOLD_ANGLE is
    dropped. *)
Theorem reset_and_completed :
  (forall now state context,
     let next := transition now (state, context) RESET_MODULE in
     fst next = action /\ set_completedAt (snd next) None = initialContext) /\
  (forall events,
     let snapshot := dispatchAll initialSnapshot events in
     fst snapshot = completed -> completedAt (snd snapshot) <> None) /\
  (forall now context event,
     eventType event <> T_RESET_MODULE -> eventType event <> T_SET_FOLD_ANGLE ->
     transition now (completed, context) event = (completed, context)).
Proof.
  split; [|split].
  - intros now state context. destruct state; now split.
  - intros events.
    apply (dispatchAll_invariant
             (fun snapshot =>
                fst snapshot = completed -> completedAt (snd snapshot) <> None)).
    + intros now [state context] event. apply completed_step.
    + discriminate.
  - intros now context event H1 H2. destruct event; try reflexivity; cbn in *; congruence.
Qed.

Lemma reset_and_completed_witness :
  transition 0%Z (completed, initialContext) COMPLETE_STEP = (completed, initialContext).
Proof.
  apply (proj2 (proj2 reset_and_completed)); discriminate.
Defined.

End ActivityMachineInvariants.
